(** * ispw-action-utilities: a shallow embedding of [index.js]

    The utilities build the request of an ISPW "generate" operation (target
    URL and JSON body), validate the build parameters, and interpret the
    response.  JavaScript strings are modelled as [string] (sequences of
    8-bit characters, so [toLowerCase] is the ASCII one: the model is exact
    for ASCII text, see [Str.isAscii]), JavaScript values as the inductive
    type [value], [console.log] / [console.error] as a log that
    is threaded through a small writer-and-exception monad, and the platform
    classes the file only calls ([URL], [JSON]) as parameters of a section.
    What the platform does with the texts is written out where a statement
    needs it: the query that the [URL] parser finds ([urlQuery]), the JSON
    texts of the values that are JSON themselves (module [JSON]), and the
    clean-up of a base URL over UTF-16 code units (module [Units]). *)

From Stdlib Require Import ZArith List String Ascii Bool Lia DecimalString.
From Stdlib Require DecimalPos DecimalZ.
Import ListNotations.

Local Open Scope string_scope.
Local Open Scope Z_scope.

(* ================================================================= *)
(** ** String primitives used by the source *)

Module Str.

(** [String.prototype.toLowerCase], on ASCII letters.  On ASCII text this is
    what the platform does, and it keeps the length; outside ASCII the
    platform's function can change the length (U+0130 becomes two units). *)
Definition lower_ascii (c : ascii) : ascii :=
  let n := N_of_ascii c in
  if ((65 <=? n) && (n <=? 90))%N then ascii_of_N (n + 32) else c.

Fixpoint toLowerCase (s : string) : string :=
  match s with
  | EmptyString => EmptyString
  | String c s' => String (lower_ascii c) (toLowerCase s')
  end.

(** [s.lastIndexOf(pat)]: the greatest index at which [pat] occurs in [s],
    or [-1].  The scan goes left to right and keeps the last hit. *)
Fixpoint lastIndexOf_from (pat s : string) (i acc : Z) : Z :=
  let acc' := if String.prefix pat s then i else acc in
  match s with
  | EmptyString => acc'
  | String _ s' => lastIndexOf_from pat s' (i + 1) acc'
  end.

Definition lastIndexOf (s pat : string) : Z := lastIndexOf_from pat s 0 (-1).

(** [s.substr(start, len)] for the calls of the source, where [start] is 0
    and [len] is not negative. *)
Definition substr (s : string) (start len : Z) : string :=
  String.substring (Z.to_nat start) (Z.to_nat len) s.

(** [s.endsWith(suffix)]. *)
Definition endsWith (s suffix : string) : bool :=
  let n := String.length s in
  let m := String.length suffix in
  (m <=? n)%nat && String.eqb (String.substring (n - m) m s) suffix.

Definition length (s : string) : Z := Z.of_nat (String.length s).

(** [pat] occurs somewhere in [s]. *)
Fixpoint occurs (pat s : string) : bool :=
  String.prefix pat s ||
  match s with
  | EmptyString => false
  | String _ s' => occurs pat s'
  end.

(** The suffix of [s] that starts at index [n]. *)
Fixpoint drop (n : nat) (s : string) : string :=
  match n, s with
  | O, _ => s
  | S n', String _ s' => drop n' s'
  | S _, EmptyString => EmptyString
  end.

(** The text is ASCII: every character is below 128. *)
Fixpoint isAscii (s : string) : bool :=
  match s with
  | EmptyString => true
  | String c s' => (N_of_ascii c <? 128)%N && isAscii s'
  end.

(** What follows the first [c] of [s], when there is one. *)
Fixpoint afterFirst (c : ascii) (s : string) : option string :=
  match s with
  | EmptyString => None
  | String x s' => if Ascii.eqb x c then Some s' else afterFirst c s'
  end.

(** What stands before the first [c] of [s] (all of [s] without a [c]). *)
Fixpoint beforeFirst (c : ascii) (s : string) : string :=
  match s with
  | EmptyString => EmptyString
  | String x s' => if Ascii.eqb x c then EmptyString
                   else String x (beforeFirst c s')
  end.

(** [s.split(c)] for a one-character separator. *)
Fixpoint splitOn (c : ascii) (s : string) : list string :=
  match s with
  | EmptyString => [EmptyString]
  | String x s' =>
      if Ascii.eqb x c then EmptyString :: splitOn c s'
      else match splitOn c s' with
           | head :: tail => String x head :: tail
           | [] => [String x EmptyString]
           end
  end.

End Str.

(* ================================================================= *)
(** ** JavaScript values, exceptions and the console *)

(** The values the utilities handle: what [JSON.parse] produces, and
    [undefined].  An object is the list of its own properties in insertion
    order; inherited (prototype) members are outside the model.  Numbers are
    the integer-valued ones (counts and lengths). *)
#[warnings="-register-all"] Inductive value : Type :=
| VUndefined
| VNull
| VBool (b : bool)
| VNum (n : Z)
| VStr (s : string)
| VArr (elems : list value)
| VObj (props : list (string * value)).

(** What a call can throw. *)
Inductive exn : Type :=
| TypeError
| SyntaxError
| GenerateFailureException (message : string).

(** One line of console output, with the value that was printed. *)
Inductive line : Type :=
| Log (v : value)      (* console.log *)
| Error (v : value).   (* console.error *)

(** A computation that writes to the console and either throws or returns. *)
Definition M (A : Type) : Type := (list line * (exn + A))%type.

Definition ret {A} (a : A) : M A := ([], inr a).

Definition throw {A} (e : exn) : M A := ([], inl e).

Definition bind {A B} (m : M A) (k : A -> M B) : M B :=
  match m with
  | (out, inl e) => (out, inl e)
  | (out, inr a) => let (out', r) := k a in ((out ++ out')%list, r)
  end.

Definition console_log (v : value) : M unit := ([Log v], inr tt).
Definition console_error (v : value) : M unit := ([Error v], inr tt).

Declare Scope js_scope.
Delimit Scope js_scope with js.
Notation "x <- m ;; k" := (bind m (fun x => k))
  (at level 61, m at next level, right associativity) : js_scope.
Notation "m ;; k" := (bind m (fun _ => k))
  (at level 61, right associativity) : js_scope.
Local Open Scope js_scope.

(** [xs.forEach(body)], where [body] updates the variables [s] it captured. *)
Fixpoint forEach {A S} (xs : list A) (body : A -> S -> M S) (s : S) : M S :=
  match xs with
  | [] => ret s
  | x :: xs' => s' <- body x s ;; forEach xs' body s'
  end.

Definition newline : string := String (ascii_of_nat 10) EmptyString.

(** The decimal text of a number: [String(n)] for the integers that a
    JavaScript number holds exactly (up to 2^53 - 1 in size). *)
Definition numberToString (n : Z) : string :=
  NilZero.string_of_int (Z.to_int n).

(** [String(v)], as a template literal applies it to an interpolated value,
    for the values whose conversion completes ([toString_throws] says for
    which it does not, [toString_exact] where this text is the platform's). *)
Fixpoint toString (v : value) : string :=
  match v with
  | VUndefined => "undefined"
  | VNull => "null"
  | VBool true => "true"
  | VBool false => "false"
  | VNum n => numberToString n
  | VStr s => s
  | VArr elems =>
      String.concat ","
        (map (fun e => match e with
                       | VUndefined | VNull => ""
                       | _ => toString e
                       end) elems)
  | VObj _ => "[object Object]"
  end.

(** [String(v)] throws a [TypeError]: [v] is an object with an own property
    [toString] (no value of the model is callable, and the inherited
    [valueOf] gives no primitive), or an array that holds such a value. *)
Fixpoint toString_throws (v : value) : bool :=
  match v with
  | VArr elems => existsb toString_throws elems
  | VObj props => existsb (fun p => String.eqb (fst p) "toString") props
  | _ => false
  end.

(** An integer that a JavaScript number holds exactly. *)
Definition safeInteger (n : Z) : bool := Z.abs n <=? 9007199254740991.

(** [String(v)] completes and is the text that [toString] gives. *)
Fixpoint toString_exact (v : value) : bool :=
  match v with
  | VNum n => safeInteger n
  | VArr elems => forallb toString_exact elems
  | VObj props => negb (existsb (fun p => String.eqb (fst p) "toString") props)
  | _ => true
  end.

(** [a === b] where one side is a primitive, as in every comparison of the
    source (with [undefined], [null], [0] and ['true']). *)
Definition strictEq (a b : value) : bool :=
  match a, b with
  | VUndefined, VUndefined => true
  | VNull, VNull => true
  | VBool x, VBool y => Bool.eqb x y
  | VNum x, VNum y => (x =? y)%Z
  | VStr x, VStr y => String.eqb x y
  | _, _ => false
  end.

(** [v == undefined]: the loose comparison also holds for [null]. *)
Definition looseEqUndefined (v : value) : bool :=
  match v with
  | VUndefined | VNull => true
  | _ => false
  end.

(** The truth value of [v] in a condition. *)
Definition truthy (v : value) : bool :=
  match v with
  | VUndefined | VNull => false
  | VBool b => b
  | VNum n => negb (n =? 0)%Z
  | VStr s => negb (String.eqb s "")
  | VArr _ | VObj _ => true
  end.

(** A property key that is an array index: decimal digits, no leading zero. *)
Fixpoint digitsValue (s : string) (acc : nat) : option nat :=
  match s with
  | EmptyString => Some acc
  | String c s' =>
      let n := nat_of_ascii c in
      if ((48 <=? n) && (n <=? 57))%nat
      then digitsValue s' (10 * acc + (n - 48))%nat
      else None
  end.

Definition arrayIndex (key : string) : option nat :=
  match key with
  | EmptyString => None
  | String c rest =>
      if Ascii.eqb c "0"
      then (if String.eqb rest "" then Some O else None)
      else digitsValue key 0
  end.

Definition lookup (props : list (string * value)) (key : string) : option value :=
  match find (fun p => String.eqb (fst p) key) props with
  | Some p => Some (snd p)
  | None => None
  end.

(** [v[key]] for a [v] that is neither [undefined] nor [null]: the own
    property.  For a key that [v] does not hold itself the platform goes on
    to the prototype; the model is exact for the keys that no prototype
    holds (for an object: every key outside [objectPrototypeKeys]). *)
Definition getOwn (v : value) (key : string) : value :=
  match v with
  | VObj props =>
      match lookup props key with
      | Some x => x
      | None => VUndefined
      end
  | VArr elems =>
      if String.eqb key "length" then VNum (Z.of_nat (List.length elems))
      else match arrayIndex key with
           | Some i => nth i elems VUndefined
           | None => VUndefined
           end
  | VStr s =>
      if String.eqb key "length" then VNum (Str.length s)
      else match arrayIndex key with
           | Some i =>
               match String.get i s with
               | Some c => VStr (String c EmptyString)
               | None => VUndefined
               end
           | None => VUndefined
           end
  | _ => VUndefined
  end.

(** [v.key] / [v[key]]: reading a property of [undefined] or [null] throws. *)
Definition getProp (v : value) (key : string) : M value :=
  match v with
  | VUndefined | VNull => throw TypeError
  | _ => ret (getOwn v key)
  end.

(** [obj.key = x] on the property list of [obj]. *)
Fixpoint setProp (props : list (string * value)) (key : string) (x : value)
  : list (string * value) :=
  match props with
  | [] => [(key, x)]
  | (k, y) :: props' =>
      if String.eqb k key then (k, x) :: props'
      else (k, y) :: setProp props' key x
  end.

Definition hasOwnProperty (v : value) (key : string) : bool :=
  match v with
  | VObj props => match lookup props key with Some _ => true | None => false end
  | _ => false
  end.

(* ================================================================= *)
(** ** URL assembly *)

(** The build parameters, with the fields the URL is made of. *)
Record BuildParms := mkBuildParms {
  containerId : string;
  releaseId : string;
  taskLevel : string;
  taskIds : list string
}.

(** The value of [cesUrl] after the three clean-up steps of
    [assembleRequestUrl] (lines 92-109). *)
Definition normalizedCesUrl (cesUrl : string) : string :=
  (* remove trailing '/compuware' from url, if it exists *)
  let lowercaseUrl := Str.toLowerCase cesUrl in
  let cpwrIndex := Str.lastIndexOf lowercaseUrl "/compuware" in
  let cesUrl := if cpwrIndex >? 0 then Str.substr cesUrl 0 cpwrIndex else cesUrl in
  (* remove trailing '/ispw' from url, if it exists *)
  let lowercaseUrl := Str.toLowerCase cesUrl in
  let ispwIndex := Str.lastIndexOf lowercaseUrl "/ispw" in
  let cesUrl := if ispwIndex >? 0 then Str.substr cesUrl 0 ispwIndex else cesUrl in
  (* remove trailing slash *)
  if Str.endsWith cesUrl "/"
  then Str.substr cesUrl 0 (Str.length cesUrl - 1)
  else cesUrl.

(** The string [tempUrlStr] handed to the [URL] constructor (lines 111-117). *)
Definition tempUrlStr (cesUrl srid : string) (buildParms : BuildParms) : string :=
  let cesUrl := normalizedCesUrl cesUrl in
  let tempUrlStr := cesUrl ++ ("/ispw/" ++ srid ++ "/assignments/") in
  let tempUrlStr := tempUrlStr ++ containerId buildParms in
  let tempUrlStr := tempUrlStr ++ "/taskIds/generate-await?" in
  let tempUrlStr :=
    fold_left (fun acc id => acc ++ ("taskId=" ++ id ++ "&"))
              (taskIds buildParms) tempUrlStr in
  tempUrlStr ++ ("level=" ++ taskLevel buildParms).

Section WithURL.
(** The platform's [URL] class: [newURL s] is [new URL(s)], [None] when the
    constructor throws. *)
Variable URL : Type.
Variable newURL : string -> option URL.

Definition assembleRequestUrl (cesUrl srid : string) (buildParms : BuildParms)
  : option URL :=
  newURL (tempUrlStr cesUrl srid buildParms).
End WithURL.

(* ================================================================= *)
(** ** The functions of [index.js] *)

(** [stringHasContent] (lines 128-134).  The [length] is read only after the
    two tests for [null] and [undefined], so the read never throws. *)
Definition stringHasContent (inputStr : value) : bool :=
  let hasContent := true in
  if strictEq inputStr VNull
     || strictEq inputStr VUndefined
     || strictEq (getOwn inputStr "length") (VNum 0)
  then false
  else hasContent.

(** [getMissingInputMessage] (lines 57-66). *)
Definition fieldNameReplacement : value :=
  VObj [ ("containerId", VStr "n assignment ID");
         ("releaseId", VStr " release ID");
         ("taskLevel", VStr " level");
         ("taskIds", VStr " list of task IDs") ].

Definition getMissingInputMessage (fieldName : string) : string :=
  "Missing input: a" ++ toString (getOwn fieldNameReplacement fieldName)
  ++ " must be specified.".

(** [validateBuildParms] (lines 36-49); the callback of [forEach] updates
    the captured [isValid]. *)
Definition validateBuildParms (buildParms : value) (requiredFields : list string)
  : M bool :=
  let isValid := false in
  if negb (strictEq buildParms VNull) && negb (strictEq buildParms VUndefined)
  then
    let isValid := true in
    forEach requiredFields
      (fun field isValid =>
         v <- getProp buildParms field ;;
         if negb (stringHasContent v)
         then console_error (VStr (getMissingInputMessage field)) ;; ret false
         else ret isValid)
      isValid
  else ret isValid.

(** [assembleRequestBodyObject] (lines 146-161). *)
Definition assembleRequestBodyObject
  (runtimeConfig changeType executionStatus autoDeploy : value) : value :=
  let requestBody := [] in
  let requestBody :=
    if stringHasContent runtimeConfig
    then setProp requestBody "runtimeConfig" runtimeConfig else requestBody in
  let requestBody :=
    if stringHasContent changeType
    then setProp requestBody "changeType" changeType else requestBody in
  let requestBody :=
    if stringHasContent executionStatus
    then setProp requestBody "execStat" executionStatus else requestBody in
  let requestBody :=
    setProp requestBody "autoDeploy" (VBool (strictEq autoDeploy (VStr "true"))) in
  VObj requestBody.

(** [getStatusMessageToPrint] (lines 246-254): the message it returns when
    the conversion of every line completes. *)
Definition getStatusMessageToPrint (statusMsg : value) : string :=
  let message := "" in
  match statusMsg with
  | VStr s => s
  | VArr elems =>
      fold_left (fun message line => message ++ (toString line ++ newline))
                elems message
  | _ => message
  end.

(** The call throws a [TypeError]: the conversion of a line does. *)
Definition getStatusMessageToPrint_throws (statusMsg : value) : bool :=
  match statusMsg with
  | VArr elems => existsb toString_throws elems
  | _ => false
  end.

(** The message is the platform's: [statusMsg] is no array, or every line
    of it converts as [toString] says. *)
Definition getStatusMessageToPrint_exact (statusMsg : value) : bool :=
  match statusMsg with
  | VArr elems => forallb toString_exact elems
  | _ => true
  end.

(** A call of [getStatusMessageToPrint], with its exception. *)
Definition call_getStatusMessageToPrint (statusMsg : value) : M string :=
  if getStatusMessageToPrint_throws statusMsg then throw TypeError
  else ret (getStatusMessageToPrint statusMsg).

(** [handleResponseBody] (lines 216-237). *)
Definition handleResponseBody (responseBody : value) : M value :=
  if strictEq responseBody VUndefined then
    (* empty response *)
    throw (GenerateFailureException
             "No response was received from the generate request.")
  else
    awaitStatus <- getProp responseBody "awaitStatus" ;;
    if strictEq awaitStatus VUndefined then
      (* message may have been returned *)
      message <- getProp responseBody "message" ;;
      (if truthy message then console_log message else ret tt) ;;
      throw (GenerateFailureException
               "The generate did not complete successfully.")
    else
      awaitStatus <- getProp responseBody "awaitStatus" ;;
      generateFailedCount <- getProp awaitStatus "generateFailedCount" ;;
      if negb (strictEq generateFailedCount (VNum 0)) then
        awaitStatus <- getProp responseBody "awaitStatus" ;;
        statusMsg <- getProp awaitStatus "statusMsg" ;;
        text <- call_getStatusMessageToPrint statusMsg ;;
        console_error (VStr text) ;;
        throw (GenerateFailureException "There were generate failures.")
      else
        (* success *)
        awaitStatus <- getProp responseBody "awaitStatus" ;;
        statusMsg <- getProp awaitStatus "statusMsg" ;;
        text <- call_getStatusMessageToPrint statusMsg ;;
        console_log (VStr text) ;;
        ret responseBody.

Section WithJSON.
(** The platform's [JSON] object.  [JSON_stringify v] is the text of a value
    that is neither [undefined] nor [null]; [JSON_parse s] throws a
    [SyntaxError] on a text that is not JSON. *)
Variable JSON_stringify : value -> string.
Variable JSON_parse : string -> M value.

(** [parseStringAsJson] (lines 22-28). *)
Definition parseStringAsJson (jsonString : value) : M value :=
  let parsedObj := VUndefined in
  if stringHasContent jsonString
  then JSON_parse (toString jsonString)
  else ret parsedObj.

(** [convertObjectToJson] (lines 74-80). *)
Definition convertObjectToJson (data : value) : string :=
  let dataStr := "" in
  if negb (strictEq data VNull) && negb (looseEqUndefined data)
  then JSON_stringify data
  else dataStr.
End WithJSON.

(* ================================================================= *)
(** ** What the specification expects, in its own words *)

(** "concatenate each entry followed by a newline (including after the last
    entry)". *)
Fixpoint linesText (entries : list string) : string :=
  match entries with
  | [] => ""
  | s :: rest => s ++ newline ++ linesText rest
  end.

(** "Append [taskId={id}&] for every id in [taskIds], in input order". *)
Fixpoint taskIdEntries (ids : list string) : string :=
  match ids with
  | [] => ""
  | id :: rest => "taskId=" ++ id ++ "&" ++ taskIdEntries rest
  end.

(** The "non-empty string check" on a raw input. *)
Definition nonEmpty (s : string) : bool := negb (String.eqb s "").

(** The path and the query of the request, as the specification writes the
    final form: [<base>/ispw/<srid>/assignments/<containerId>/taskIds/generate-await]
    and [taskId=<id1>&...&level=<taskLevel>]. *)
Definition requestPath (base srid container : string) : string :=
  base ++ "/ispw/" ++ srid ++ "/assignments/" ++ container
  ++ "/taskIds/generate-await".

Definition queryString (ids : list string) (level : string) : string :=
  taskIdEntries ids ++ "level=" ++ level.

(** "one [taskId=] entry per id, in original order, followed by exactly one
    [level=] entry": the entries of the query, which [&] separates. *)
Definition queryEntries (ids : list string) (level : string) : list string :=
  (map (append "taskId=") ids ++ [append "level=" level])%list.

(** The three messages of [GenerateFailureException]. *)
Definition noResponse : exn :=
  GenerateFailureException "No response was received from the generate request.".
Definition notCompleted : exn :=
  GenerateFailureException "The generate did not complete successfully.".
Definition generateFailures : exn :=
  GenerateFailureException "There were generate failures.".

(** The required fields that have no content in [buildParms], and the line
    printed for one of them. *)
Definition missingFields (buildParms : value) (requiredFields : list string)
  : list string :=
  filter (fun field => negb (stringHasContent (getOwn buildParms field)))
         requiredFields.

Definition diagnostic (field : string) : line :=
  Error (VStr (getMissingInputMessage field)).

(** The trailing decorations of a base URL that the specification lists
    (in lower case), and the optional trailing slash. *)
Definition decorations : list string :=
  [""; "/compuware"; "/ispw"; "/compuware/ispw"].

Definition trailingSlashes : list string := [""; "/"].

(** The object that carries a [BuildParms] record, and the fields the
    generate action requires of it. *)
Definition buildParmsValue (buildParms : BuildParms) : value :=
  VObj [ ("containerId", VStr (containerId buildParms));
         ("releaseId", VStr (releaseId buildParms));
         ("taskLevel", VStr (taskLevel buildParms));
         ("taskIds", VArr (map VStr (taskIds buildParms))) ].

Definition generateFields : list string :=
  ["containerId"; "releaseId"; "taskLevel"; "taskIds"].

(** One entry of the platform's JSON, for the body [{autoDeploy: true}]:
    its text, and a reader that knows this text only. *)
Definition doubleQuote : string := String (ascii_of_nat 34) EmptyString.

Definition autoDeployText : string :=
  "{" ++ doubleQuote ++ "autoDeploy" ++ doubleQuote ++ ":true}".

Definition sampleParse (text : string) : M value :=
  if String.eqb text autoDeployText
  then ret (VObj [("autoDeploy", VBool true)])
  else throw SyntaxError.

(* ================================================================= *)
(** ** The steps of the URL clean-up, named *)

(** One truncation step of [assembleRequestUrl]: cut [cesUrl] at the last
    occurrence of [pat] in its lower-case form, when that is at an index
    greater than 0. *)
Definition truncateAtLast (pat cesUrl : string) : string :=
  let index := Str.lastIndexOf (Str.toLowerCase cesUrl) pat in
  if index >? 0 then Str.substr cesUrl 0 index else cesUrl.

Definition removeTrailingSlash (cesUrl : string) : string :=
  if Str.endsWith cesUrl "/"
  then Str.substr cesUrl 0 (Str.length cesUrl - 1)
  else cesUrl.

(** [c] is one of the characters of [s]. *)
Fixpoint charIn (c : ascii) (s : string) : bool :=
  match s with
  | EmptyString => false
  | String x s' => Ascii.eqb c x || charIn c s'
  end.

(** No occurrence of [pat] can start before [t] and run into it: [t] is
    empty, or starts with a character that [pat] has at its head only. *)
Definition boundarySafe (pat t : string) : bool :=
  match pat, t with
  | String _ _, EmptyString => true
  | String _ pat', String x _ => negb (charIn x pat')
  | EmptyString, _ => false
  end.

(* ================================================================= *)
(** ** Retrieving the inputs *)

(** The names that every object inherits from [Object.prototype].  Reading
    one of them from an object that has no own property of that name gives
    the inherited member, which the model does not hold. *)
Definition objectPrototypeKeys : list string :=
  [ "constructor"; "hasOwnProperty"; "isPrototypeOf"; "propertyIsEnumerable";
    "toLocaleString"; "toString"; "valueOf"; "__proto__";
    "__defineGetter__"; "__defineSetter__"; "__lookupGetter__";
    "__lookupSetter__" ].

(** [key] is a name that an object inherits. *)
Definition inheritedName (key : string) : bool :=
  existsb (String.eqb key) objectPrototypeKeys.

(** None of the fields is a name that an object inherits: reading them from
    an object gives its own properties, as [getOwn] does. *)
Definition ownNamesOnly (fields : list string) : bool :=
  forallb (fun field => negb (inheritedName field)) fields.

(** [null], [undefined] or an object (not a string, an array, a number or a
    boolean, which inherit other names). *)
Definition plainOrAbsent (v : value) : bool :=
  match v with
  | VUndefined | VNull | VObj _ => true
  | _ => false
  end.

(** [obj[key] = x] for a primitive [x] on an object literal.  The key
    [__proto__] reaches the inherited setter, which ignores a value that is
    not an object: no property is created. *)
Definition assignPrimitive (props : list (string * value)) (key : string)
  (x : value) : list (string * value) :=
  if String.eqb key "__proto__" then props else setProp props key x.

Section WithCore.
(** [core.getInput] of the actions toolkit, called without options: it
    returns a string for every name. *)
Variable core_getInput : string -> string.

(** [retrieveInputs] (lines 9-13); the callback of [forEach] assigns into
    the captured [inputs]. *)
Definition retrieveInputs (inputFields : list string) : value :=
  let inputs := [] in
  let inputs :=
    fold_left (fun inputs inputName =>
                 assignPrimitive inputs inputName (VStr (core_getInput inputName)))
              inputFields inputs in
  VObj inputs.
End WithCore.

(** The own property names of an object, in insertion order. *)
Definition ownKeys (v : value) : list string :=
  match v with
  | VObj props => map fst props
  | _ => []
  end.

(** A sample of action inputs: an assignment and a level, nothing else. *)
Definition sampleInputs (name : string) : string :=
  if String.eqb name "containerId" then "PLAY000826"
  else if String.eqb name "taskLevel" then "DEV2"
  else "".

(** A property of the request body that is there only when its input has
    content. *)
Definition optionalProperty (key : string) (input : value)
  : list (string * value) :=
  if stringHasContent input then [(key, input)] else [].

(** [s] is empty or starts with a slash. *)
Definition startsAtSlash (s : string) : Prop :=
  s = "" \/ exists rest, s = String "/" rest.

(* ================================================================= *)
(** ** The JSON texts of the platform *)

(** [JSON.stringify] and [JSON.parse] belong to the platform.  This module
    writes them out for the values that are JSON themselves: [stringify]
    as the platform writes a value without indentation, and [parse] for the
    texts of that compact form (no white space, integers only, of the
    escapes [\u00XX] only for a character).  [parse] answers [None] for
    every other text, valid JSON or not. *)
Module JSON.

Definition quoteChar : ascii :=
  Ascii false true false false false true false false.

Definition hexDigit (n : N) : ascii :=
  (if n <? 10 then ascii_of_N (48 + n) else ascii_of_N (87 + n))%N.

Definition hexValue (c : ascii) : option N :=
  let n := N_of_ascii c in
  (if (48 <=? n) && (n <=? 57) then Some (n - 48)
   else if (97 <=? n) && (n <=? 102) then Some (n - 87)
   else if (65 <=? n) && (n <=? 70) then Some (n - 55)
   else None)%N.

(** One character inside a JSON string: the quote, the backslash and the
    control characters are escaped. *)
Definition escapeChar (c : ascii) : string :=
  let n := N_of_ascii c in
  (if n =? 34 then String "\" (String quoteChar "")
   else if n =? 92 then "\\"
   else if n =? 8 then "\b"
   else if n =? 9 then "\t"
   else if n =? 10 then "\n"
   else if n =? 12 then "\f"
   else if n =? 13 then "\r"
   else if n <? 32
        then "\u00" ++ String (hexDigit (n / 16)) (String (hexDigit (n mod 16)) "")
   else String c "")%N.

Fixpoint escape (s : string) : string :=
  match s with
  | EmptyString => EmptyString
  | String c s' => escapeChar c ++ escape s'
  end.

Definition quote (s : string) : string :=
  String quoteChar (escape s ++ String quoteChar "").

(** [JSON.stringify(v)] without indentation.  An [undefined] entry of an
    array is written [null], a property that is [undefined] is left out
    (the source never passes [undefined] itself). *)
Fixpoint stringify (v : value) : string :=
  match v with
  | VUndefined => "null"
  | VNull => "null"
  | VBool true => "true"
  | VBool false => "false"
  | VNum n => numberToString n
  | VStr s => quote s
  | VArr elems => "[" ++ String.concat "," (map stringify elems) ++ "]"
  | VObj props =>
      "{" ++ String.concat ","
               (flat_map (fun p => match snd p with
                                   | VUndefined => []
                                   | _ => [quote (fst p) ++ ":"
                                           ++ stringify (snd p)]
                                   end) props)
          ++ "}"
  end.

(** The keys of an object that keeps the order in which its properties were
    written: no key twice, and no key that starts with a digit (the
    platform lists integer keys first, whatever the order of writing). *)
Fixpoint distinct (keys : list string) : bool :=
  match keys with
  | [] => true
  | key :: keys' => negb (existsb (String.eqb key) keys') && distinct keys'
  end.

Definition isDigit (c : ascii) : bool :=
  let n := N_of_ascii c in ((48 <=? n) && (n <=? 57))%N.

Definition digitStart (key : string) : bool :=
  match key with
  | EmptyString => false
  | String c _ => isDigit c
  end.

Definition keysOk (keys : list string) : bool :=
  distinct keys && forallb (fun key => negb (digitStart key)) keys.


Definition consChar (c : ascii) (r : option (string * string))
  : option (string * string) :=
  match r with
  | Some (str, rest) => Some (String c str, rest)
  | None => None
  end.

(** The characters of a JSON string, after its opening quote, up to the
    closing one; the result is the string and the text that follows. *)
Fixpoint parseChars (s : string) : option (string * string) :=
  match s with
  | EmptyString => None
  | String c s' =>
      if Ascii.eqb c quoteChar then Some (EmptyString, s')
      else if Ascii.eqb c "\" then
        match s' with
        | EmptyString => None
        | String e s'' =>
            if Ascii.eqb e quoteChar then consChar quoteChar (parseChars s'')
            else if Ascii.eqb e "\" then consChar "\" (parseChars s'')
            else if Ascii.eqb e "/" then consChar "/" (parseChars s'')
            else if Ascii.eqb e "b" then consChar (ascii_of_N 8) (parseChars s'')
            else if Ascii.eqb e "t" then consChar (ascii_of_N 9) (parseChars s'')
            else if Ascii.eqb e "n" then consChar (ascii_of_N 10) (parseChars s'')
            else if Ascii.eqb e "f" then consChar (ascii_of_N 12) (parseChars s'')
            else if Ascii.eqb e "r" then consChar (ascii_of_N 13) (parseChars s'')
            else if Ascii.eqb e "u" then
              match s'' with
              | String z1 (String z2 (String h1 (String h2 s3))) =>
                  if Ascii.eqb z1 "0" && Ascii.eqb z2 "0" then
                    match hexValue h1, hexValue h2 with
                    | Some a, Some b =>
                        consChar (ascii_of_N (16 * a + b)) (parseChars s3)
                    | _, _ => None
                    end
                  else None
              | _ => None
              end
            else None
        end
      else if (N_of_ascii c <? 32)%N then None
      else consChar c (parseChars s')
  end.

Fixpoint spanDigits (s : string) : string * string :=
  match s with
  | EmptyString => (EmptyString, EmptyString)
  | String c s' =>
      if isDigit c
      then let (digits, rest) := spanDigits s' in (String c digits, rest)
      else (EmptyString, s)
  end.

(** An integer: an optional sign and digits.  The literal must be the text
    that the platform writes for its value (no leading zero, no [-0]), and
    the value an integer that a number holds exactly. *)
Definition parseNumber (s : string) : option (value * string) :=
  let (sign, body) :=
    match s with
    | EmptyString => (EmptyString, s)
    | String c s' => if Ascii.eqb c "-" then ("-", s') else (EmptyString, s)
    end in
  let (digits, rest) := spanDigits body in
  let literal := sign ++ digits in
  match NilZero.int_of_string literal with
  | Some d =>
      let n := Z.of_int d in
      if String.eqb (numberToString n) literal && safeInteger n
      then Some (VNum n, rest)
      else None
  | None => None
  end.

(** The entries of an array after its [[], up to its []]. *)
Fixpoint parseElements (parseValue : string -> option (value * string))
  (fuel : nat) (s : string) : option (list value * string) :=
  match fuel with
  | O => None
  | S fuel' =>
      match parseValue s with
      | Some (x, String c rest) =>
          if Ascii.eqb c "," then
            match parseElements parseValue fuel' rest with
            | Some (elems, rest') => Some (x :: elems, rest')
            | None => None
            end
          else if Ascii.eqb c "]" then Some ([x], rest)
          else None
      | _ => None
      end
  end.

(** The properties of an object after its [{], up to its [}]. *)
Fixpoint parseMembers (parseValue : string -> option (value * string))
  (fuel : nat) (s : string) : option (list (string * value) * string) :=
  match fuel with
  | O => None
  | S fuel' =>
      match s with
      | EmptyString => None
      | String q s1 =>
          if Ascii.eqb q quoteChar then
            match parseChars s1 with
            | Some (key, String colon s2) =>
                if Ascii.eqb colon ":" then
                  match parseValue s2 with
                  | Some (x, String c rest) =>
                      if Ascii.eqb c "," then
                        match parseMembers parseValue fuel' rest with
                        | Some (props, rest') => Some ((key, x) :: props, rest')
                        | None => None
                        end
                      else if Ascii.eqb c "}" then Some ([(key, x)], rest)
                      else None
                  | _ => None
                  end
                else None
            | _ => None
            end
          else None
      end
  end.

(** One JSON value at the head of [s], and the text that follows it.
    [fuel] bounds the nesting and the number of entries. *)
Fixpoint parseValue (fuel : nat) (s : string) : option (value * string) :=
  match fuel with
  | O => None
  | S fuel' =>
      match s with
      | EmptyString => None
      | String c s' =>
          if isDigit c || Ascii.eqb c "-" then parseNumber s
          else if Ascii.eqb c quoteChar then
            match parseChars s' with
            | Some (str, rest) => Some (VStr str, rest)
            | None => None
            end
          else if Ascii.eqb c "[" then
            match parseElements (parseValue fuel') fuel' s' with
            | Some (elems, rest) => Some (VArr elems, rest)
            | None =>
                match s' with
                | String c' rest =>
                    if Ascii.eqb c' "]" then Some (VArr [], rest) else None
                | EmptyString => None
                end
            end
          else if Ascii.eqb c "{" then
            match parseMembers (parseValue fuel') fuel' s' with
            | Some (props, rest) =>
                if keysOk (map fst props) then Some (VObj props, rest) else None
            | None =>
                match s' with
                | String c' rest =>
                    if Ascii.eqb c' "}" then Some (VObj [], rest) else None
                | EmptyString => None
                end
            end
          else if String.prefix "null" s then Some (VNull, Str.drop 4 s)
          else if String.prefix "true" s then Some (VBool true, Str.drop 4 s)
          else if String.prefix "false" s then Some (VBool false, Str.drop 5 s)
          else None
      end
  end.

(** [JSON.parse(text)] on the compact texts: the whole text is one value. *)
Definition parse (text : string) : option value :=
  match parseValue (String.length text) text with
  | Some (v, EmptyString) => Some v
  | _ => None
  end.


End JSON.

(* ================================================================= *)
(** ** The query of the assembled URL *)

(** The query that the [URL] parser finds in an [http] URL text: what stands
    after the first [?] of the part before the first [#].  The parser keeps
    the characters of the query as written, except for those that
    [entryChar] leaves out. *)
Definition urlQuery (href : string) : string :=
  match Str.afterFirst "?" (Str.beforeFirst "#" href) with
  | Some query => query
  | None => ""
  end.

(** A printable ASCII character that the parser keeps as written in a query
    (not a space, a double quote, [#], [<], [>] or a single quote), and that
    does not separate entries (not [&]). *)
Definition entryChar (c : ascii) : bool :=
  let n := N_of_ascii c in
  ((33 <=? n) && (n <=? 126)
   && negb (n =? 34) && negb (n =? 35) && negb (n =? 38) && negb (n =? 39)
   && negb (n =? 60) && negb (n =? 62))%N.

Fixpoint entryText (s : string) : bool :=
  match s with
  | EmptyString => true
  | String c s' => entryChar c && entryText s'
  end.

(** A text that neither starts the query nor the fragment of a URL. *)
Definition pathText (s : string) : bool :=
  negb (charIn "?" s) && negb (charIn "#" s).

(* ================================================================= *)
(** ** The clean-up steps on UTF-16 code units *)

(** The strings of the platform are sequences of UTF-16 code units.  This
    module writes the clean-up steps of [assembleRequestUrl] (lines 92-109)
    once more, over code units, for base URLs outside ASCII. *)
Module Units.

(** [toLowerCase] of one code unit: the ASCII capitals, and U+0130 (capital
    I with a dot above), whose lower case is the two units U+0069 U+0307.
    The other units are kept, as the platform keeps the other ASCII units;
    the other capitals outside ASCII are not covered. *)
Definition lower_unit (u : N) : list N :=
  (if (65 <=? u) && (u <=? 90) then [u + 32]
   else if u =? 304 then [105; 775]
   else [u])%N.

Definition toLowerCase (s : list N) : list N := flat_map lower_unit s.

Fixpoint prefix (pat s : list N) : bool :=
  match pat, s with
  | [], _ => true
  | p :: pat', x :: s' => (p =? x)%N && prefix pat' s'
  | _ :: _, [] => false
  end.

Fixpoint lastIndexOf_from (pat s : list N) (i acc : Z) : Z :=
  let acc' := if prefix pat s then i else acc in
  match s with
  | [] => acc'
  | _ :: s' => lastIndexOf_from pat s' (i + 1) acc'
  end.

Definition lastIndexOf (s pat : list N) : Z := lastIndexOf_from pat s 0 (-1).

Definition substr (s : list N) (start len : Z) : list N :=
  firstn (Z.to_nat len) (skipn (Z.to_nat start) s).

Fixpoint eqb (s t : list N) : bool :=
  match s, t with
  | [], [] => true
  | x :: s', y :: t' => (x =? y)%N && eqb s' t'
  | _, _ => false
  end.

Definition endsWith (s suffix : list N) : bool :=
  let n := List.length s in
  let m := List.length suffix in
  (m <=? n)%nat && eqb (firstn m (skipn (n - m) s)) suffix.

Definition length (s : list N) : Z := Z.of_nat (List.length s).

(** The code units of an ASCII text. *)
Fixpoint ofString (s : string) : list N :=
  match s with
  | EmptyString => []
  | String c s' => N_of_ascii c :: ofString s'
  end.

Definition normalizedCesUrl (cesUrl : list N) : list N :=
  (* remove trailing '/compuware' from url, if it exists *)
  let lowercaseUrl := toLowerCase cesUrl in
  let cpwrIndex := lastIndexOf lowercaseUrl (ofString "/compuware") in
  let cesUrl := if cpwrIndex >? 0 then substr cesUrl 0 cpwrIndex else cesUrl in
  (* remove trailing '/ispw' from url, if it exists *)
  let lowercaseUrl := toLowerCase cesUrl in
  let ispwIndex := lastIndexOf lowercaseUrl (ofString "/ispw") in
  let cesUrl := if ispwIndex >? 0 then substr cesUrl 0 ispwIndex else cesUrl in
  (* remove trailing slash *)
  if endsWith cesUrl (ofString "/")
  then substr cesUrl 0 (length cesUrl - 1)
  else cesUrl.

End Units.

(* ================================================================= *)
(** ** Basic facts: strings, the monad, property reads *)

Lemma append_assoc (a b c : string) : (a ++ b) ++ c = a ++ (b ++ c).
Proof. induction a as [|x a IH]; simpl; [reflexivity | now rewrite IH]. Qed.

Lemma append_nil_r (a : string) : a ++ "" = a.
Proof. induction a as [|x a IH]; simpl; [reflexivity | now rewrite IH]. Qed.

Lemma append_length (a b : string) :
  String.length (a ++ b) = (String.length a + String.length b)%nat.
Proof. induction a as [|x a IH]; simpl; [reflexivity | now rewrite IH]. Qed.

Lemma bind_ret_l {A B} (a : A) (k : A -> M B) : bind (ret a) k = k a.
Proof. unfold bind, ret. destruct (k a); reflexivity. Qed.

Lemma strictEq_undefined (v : value) : strictEq v VUndefined = true <-> v = VUndefined.
Proof. destruct v; simpl; split; intro H; try reflexivity; discriminate. Qed.

Lemma strictEq_null (v : value) : strictEq v VNull = true <-> v = VNull.
Proof. destruct v; simpl; split; intro H; try reflexivity; discriminate. Qed.

Lemma strictEq_zero (v : value) : strictEq v (VNum 0) = true <-> v = VNum 0.
Proof.
  destruct v; simpl; split; intro H; try discriminate.
  - apply Z.eqb_eq in H. now subst.
  - injection H as ->. reflexivity.
Qed.

Lemma strictEq_undefined_false (v : value) :
  v <> VUndefined -> strictEq v VUndefined = false.
Proof.
  intro H. destruct (strictEq v VUndefined) eqn:E; [|reflexivity].
  apply strictEq_undefined in E. contradiction.
Qed.

Lemma getProp_defined (v : value) (key : string) :
  v <> VUndefined -> v <> VNull -> getProp v key = ret (getOwn v key).
Proof. destruct v; intros; try reflexivity; contradiction. Qed.


Lemma stringHasContent_VStr (s : string) : stringHasContent (VStr s) = nonEmpty s.
Proof. destruct s; reflexivity. Qed.

Lemma stringHasContent_VArr (elems : list value) :
  stringHasContent (VArr elems) = negb (Nat.eqb (List.length elems) 0).
Proof. destruct elems; reflexivity. Qed.

Lemma nonEmpty_true (s : string) : nonEmpty s = true <-> s <> "".
Proof.
  unfold nonEmpty. destruct (String.eqb_spec s ""); simpl; split; intro H;
    try discriminate; try reflexivity; try contradiction; assumption.
Qed.

Lemma hasOwnProperty_In (props : list (string * value)) (key : string) :
  hasOwnProperty (VObj props) key = true -> In key (map fst props).
Proof.
  unfold hasOwnProperty, lookup.
  induction props as [|[k x] props IH]; simpl; [discriminate|].
  destruct (String.eqb_spec k key) as [->|Hne]; [now left|].
  intro H. right. exact (IH H).
Qed.

(* ================================================================= *)
(** ** The request body *)

(** C5: for string inputs, the body holds [runtimeConfig], [changeType] and
    [execStat] exactly when the matching input is not empty (with the input
    as value), always holds [autoDeploy], which is [true] exactly when the
    raw input is the string "true", and holds no other key. *)
Theorem assembleRequestBodyObject_keys :
  forall runtimeConfig changeType executionStatus autoDeploy : string,
    let body := assembleRequestBodyObject (VStr runtimeConfig) (VStr changeType)
                  (VStr executionStatus) (VStr autoDeploy) in
    body = VObj
             ((if nonEmpty runtimeConfig
               then [("runtimeConfig", VStr runtimeConfig)] else [])
              ++ (if nonEmpty changeType
                  then [("changeType", VStr changeType)] else [])
              ++ (if nonEmpty executionStatus
                  then [("execStat", VStr executionStatus)] else [])
              ++ [("autoDeploy", VBool (String.eqb autoDeploy "true"))])%list
    /\ (hasOwnProperty body "runtimeConfig" = true <-> runtimeConfig <> "")
    /\ (hasOwnProperty body "changeType" = true <-> changeType <> "")
    /\ (hasOwnProperty body "execStat" = true <-> executionStatus <> "")
    /\ hasOwnProperty body "autoDeploy" = true
    /\ getOwn body "autoDeploy" = VBool (String.eqb autoDeploy "true")
    /\ (String.eqb autoDeploy "true" = true <-> autoDeploy = "true")
    /\ (forall key, hasOwnProperty body key = true ->
          key = "runtimeConfig" \/ key = "changeType" \/ key = "execStat"
          \/ key = "autoDeploy").
Proof.
  intros rc ct es ad body.
  assert (Hbody : body = VObj
             ((if nonEmpty rc then [("runtimeConfig", VStr rc)] else [])
              ++ (if nonEmpty ct then [("changeType", VStr ct)] else [])
              ++ (if nonEmpty es then [("execStat", VStr es)] else [])
              ++ [("autoDeploy", VBool (String.eqb ad "true"))])%list).
  { subst body. unfold assembleRequestBodyObject.
    rewrite !stringHasContent_VStr.
    destruct (nonEmpty rc), (nonEmpty ct), (nonEmpty es); reflexivity. }
  split; [exact Hbody|].
  rewrite Hbody. clear Hbody body.
  repeat split.
  - rewrite <- nonEmpty_true. destruct (nonEmpty rc); [reflexivity|].
    destruct (nonEmpty ct), (nonEmpty es); discriminate.
  - intro H. apply nonEmpty_true in H. rewrite H.
    reflexivity.
  - rewrite <- nonEmpty_true. destruct (nonEmpty ct); [reflexivity|].
    destruct (nonEmpty rc), (nonEmpty es); discriminate.
  - intro H. apply nonEmpty_true in H. rewrite H.
    destruct (nonEmpty rc); reflexivity.
  - rewrite <- nonEmpty_true. destruct (nonEmpty es); [reflexivity|].
    destruct (nonEmpty rc), (nonEmpty ct); discriminate.
  - intro H. apply nonEmpty_true in H. rewrite H.
    destruct (nonEmpty rc), (nonEmpty ct); reflexivity.
  - destruct (nonEmpty rc), (nonEmpty ct), (nonEmpty es); reflexivity.
  - destruct (nonEmpty rc), (nonEmpty ct), (nonEmpty es); reflexivity.
  - apply String.eqb_eq.
  - apply String.eqb_eq.
  - intros key H. apply hasOwnProperty_In in H.
    destruct (nonEmpty rc), (nonEmpty ct), (nonEmpty es); simpl in H;
      intuition auto.
Qed.

Example assembleRequestBodyObject_only_autoDeploy :
  assembleRequestBodyObject (VStr "") (VStr "") (VStr "") (VStr "true")
  = VObj [("autoDeploy", VBool true)].
Proof. reflexivity. Qed.

Example assembleRequestBodyObject_all_fields :
  assembleRequestBodyObject (VStr "cfg") (VStr "type") (VStr "status") (VStr "false")
  = VObj [("runtimeConfig", VStr "cfg"); ("changeType", VStr "type");
          ("execStat", VStr "status"); ("autoDeploy", VBool false)].
Proof. reflexivity. Qed.

Example assembleRequestBodyObject_autoDeploy_case_sensitive :
  getOwn (assembleRequestBodyObject VUndefined VNull (VStr "") (VStr "True"))
         "autoDeploy" = VBool false.
Proof. reflexivity. Qed.

(* ================================================================= *)
(** ** The status message *)

Lemma fold_lines (entries : list string) (acc : string) :
  fold_left (fun message line => message ++ (toString line ++ newline))
            (map VStr entries) acc
  = acc ++ linesText entries.
Proof.
  revert acc. induction entries as [|s rest IH]; intro acc; simpl.
  - now rewrite append_nil_r.
  - rewrite IH. now rewrite !append_assoc.
Qed.

(** C7: a string is returned unchanged; a sequence of strings gives each
    entry followed by a newline, the last one included; every other kind of
    value gives the empty string. *)
Theorem getStatusMessageToPrint_cases :
  (forall s : string, getStatusMessageToPrint (VStr s) = s)
  /\ (forall entries : list string,
        getStatusMessageToPrint (VArr (map VStr entries)) = linesText entries)
  /\ getStatusMessageToPrint VUndefined = ""
  /\ getStatusMessageToPrint VNull = ""
  /\ (forall b, getStatusMessageToPrint (VBool b) = "")
  /\ (forall n, getStatusMessageToPrint (VNum n) = "")
  /\ (forall props, getStatusMessageToPrint (VObj props) = "").
Proof.
  repeat split.
  intro entries. unfold getStatusMessageToPrint. now rewrite fold_lines.
Qed.

Example getStatusMessageToPrint_two_lines :
  getStatusMessageToPrint (VArr [VStr "a"; VStr "b"])
  = "a" ++ newline ++ "b" ++ newline.
Proof. reflexivity. Qed.

(* ================================================================= *)
(** ** Interpreting the response *)

Lemma handleResponseBody_defined (responseBody : value) :
  responseBody <> VUndefined -> responseBody <> VNull ->
  handleResponseBody responseBody =
    let awaitStatus := getOwn responseBody "awaitStatus" in
    let statusMsg := getOwn awaitStatus "statusMsg" in
    let text := getStatusMessageToPrint statusMsg in
    if strictEq awaitStatus VUndefined then
      ((if truthy (getOwn responseBody "message")
        then [Log (getOwn responseBody "message")] else []),
       inl notCompleted)
    else if strictEq awaitStatus VNull then ([], inl TypeError)
    else if getStatusMessageToPrint_throws statusMsg then ([], inl TypeError)
    else if negb (strictEq (getOwn awaitStatus "generateFailedCount") (VNum 0))
    then ([Error (VStr text)], inl generateFailures)
    else ([Log (VStr text)], inr responseBody).
Proof.
  intros Hu Hn. unfold handleResponseBody.
  rewrite (strictEq_undefined_false _ Hu).
  rewrite !(getProp_defined responseBody) by assumption.
  rewrite bind_ret_l. cbv zeta.
  destruct (getOwn responseBody "awaitStatus") as [| |b|n|s|elems|props] eqn:Eaw;
    cbn [strictEq]; rewrite bind_ret_l;
    [ destruct (truthy (getOwn responseBody "message")); reflexivity
    | reflexivity
    | .. ];
    cbn [getProp]; rewrite !bind_ret_l;
    match goal with
    | |- context [strictEq ?c (VNum 0)] => destruct (strictEq c (VNum 0))
    end;
    cbn [negb getProp]; rewrite !bind_ret_l;
    unfold call_getStatusMessageToPrint;
    match goal with
    | |- context [getStatusMessageToPrint_throws ?m] =>
        destruct (getStatusMessageToPrint_throws m)
    end; reflexivity.
Qed.

Lemma toString_exact_completes (v : value) :
  toString_exact v = true -> toString_throws v = false.
Proof.
  revert v. fix IH 1. intros [| |b|n|s|elems|props]; cbn [toString_exact toString_throws];
    try reflexivity.
  - induction elems as [|e elems IHelems]; cbn [forallb existsb];
      [reflexivity|].
    intro H. apply andb_true_iff in H as [H1 H2].
    rewrite (IH e H1). exact (IHelems H2).
  - intro H. now apply negb_true_iff in H.
Qed.

Lemma getStatusMessageToPrint_exact_completes (statusMsg : value) :
  getStatusMessageToPrint_exact statusMsg = true ->
  getStatusMessageToPrint_throws statusMsg = false.
Proof.
  destruct statusMsg as [| |b|n|s|elems|props]; try reflexivity.
  cbn [getStatusMessageToPrint_exact getStatusMessageToPrint_throws].
  induction elems as [|e elems IH]; cbn [forallb existsb]; [reflexivity|].
  intro H. apply andb_true_iff in H as [H1 H2].
  now rewrite (toString_exact_completes e H1), (IH H2).
Qed.

(** C6 (as amended): an [undefined] response body fails with the
    "No response" exception, and nothing is printed. *)
Theorem handleResponseBody_undefined :
  handleResponseBody VUndefined = ([], inl noResponse).
Proof. reflexivity. Qed.

(** C6 as stated fails for [null]: the guard tests [=== undefined] only, and
    reading [awaitStatus] of [null] throws a [TypeError]. *)
Lemma handleResponseBody_null_not_noResponse :
  handleResponseBody VNull <> ([], inl noResponse).
Proof. discriminate. Qed.

Example handleResponseBody_null :
  handleResponseBody VNull = ([], inl TypeError).
Proof. reflexivity. Qed.

(** C2 (as amended): a response body that is neither [undefined] nor [null],
    whose [awaitStatus] is not [null] and whose [statusMsg] is a string, an
    array of lines that convert to strings, or no array at all, is
    classified in order.  Without
    [awaitStatus], the [message] is logged when it is truthy and the call
    fails with "did not complete"; with a [generateFailedCount] other than
    [0], the status text is printed as an error and the call fails with
    "generate failures"; otherwise the status text is logged and the response
    body itself is returned. *)
Theorem handleResponseBody_classifies :
  forall responseBody : value,
    responseBody <> VUndefined ->
    responseBody <> VNull ->
    getOwn responseBody "awaitStatus" <> VNull ->
    getStatusMessageToPrint_exact
      (getOwn (getOwn responseBody "awaitStatus") "statusMsg") = true ->
    let awaitStatus := getOwn responseBody "awaitStatus" in
    let message := getOwn responseBody "message" in
    let generateFailedCount := getOwn awaitStatus "generateFailedCount" in
    let text := getStatusMessageToPrint (getOwn awaitStatus "statusMsg") in
    (awaitStatus = VUndefined ->
       handleResponseBody responseBody =
         ((if truthy message then [Log message] else []), inl notCompleted))
    /\ (awaitStatus <> VUndefined -> generateFailedCount <> VNum 0 ->
          handleResponseBody responseBody =
            ([Error (VStr text)], inl generateFailures))
    /\ (awaitStatus <> VUndefined -> generateFailedCount = VNum 0 ->
          handleResponseBody responseBody =
            ([Log (VStr text)], inr responseBody)).
Proof.
  intros rb Hu Hn Haw Hexact aw message gfc text.
  rewrite (handleResponseBody_defined rb Hu Hn). cbv zeta.
  rewrite (getStatusMessageToPrint_exact_completes _ Hexact).
  fold aw. fold gfc. fold text. fold message.
  repeat split.
  - intros ->. reflexivity.
  - intros Hpresent Hcount.
    rewrite (strictEq_undefined_false _ Hpresent).
    destruct (strictEq aw VNull) eqn:E.
    { apply strictEq_null in E. contradiction. }
    destruct (strictEq gfc (VNum 0)) eqn:E0; [|reflexivity].
    apply strictEq_zero in E0. contradiction.
  - intros Hpresent Hcount.
    rewrite (strictEq_undefined_false _ Hpresent).
    destruct (strictEq aw VNull) eqn:E.
    { apply strictEq_null in E. contradiction. }
    rewrite Hcount. reflexivity.
Qed.

Lemma handleResponseBody_classifies_witness :
  handleResponseBody
    (VObj [("awaitStatus",
            VObj [("generateFailedCount", VNum 0); ("statusMsg", VStr "ok")])])
  = ([Log (VStr "ok")],
     inr (VObj [("awaitStatus",
                 VObj [("generateFailedCount", VNum 0); ("statusMsg", VStr "ok")])])).
Proof.
  refine (proj2 (proj2 (handleResponseBody_classifies
    (VObj [("awaitStatus",
            VObj [("generateFailedCount", VNum 0); ("statusMsg", VStr "ok")])])
    _ _ _ _)) _ _); try discriminate; reflexivity.
Defined.

(** C2 as stated fails for [null], which is not [undefined]: the call ends
    in a [TypeError], which is none of the three outcomes. *)
Lemma handleResponseBody_null_not_classified :
  ~ (exists out,
       handleResponseBody VNull = (out, inl notCompleted)
       \/ handleResponseBody VNull = (out, inl generateFailures)
       \/ handleResponseBody VNull = (out, inr VNull)).
Proof. intros [out [H | [H | H]]]; discriminate. Qed.

Example handleResponseBody_null_awaitStatus :
  handleResponseBody (VObj [("awaitStatus", VNull)]) = ([], inl TypeError).
Proof. reflexivity. Qed.

Example handleResponseBody_message :
  handleResponseBody (VObj [("message", VStr "x")])
  = ([Log (VStr "x")], inl notCompleted).
Proof. reflexivity. Qed.

Example handleResponseBody_empty_message :
  handleResponseBody (VObj [("message", VStr "")]) = ([], inl notCompleted).
Proof. reflexivity. Qed.

Example handleResponseBody_two_failures :
  handleResponseBody
    (VObj [("awaitStatus",
            VObj [("generateFailedCount", VNum 2);
                  ("statusMsg", VArr [VStr "a"; VStr "b"])])])
  = ([Error (VStr ("a" ++ newline ++ "b" ++ newline))], inl generateFailures).
Proof. reflexivity. Qed.





(* ================================================================= *)
(** ** Validating the build parameters *)

Lemma validate_loop (buildParms : value) (requiredFields : list string)
      (isValid : bool) :
  buildParms <> VUndefined -> buildParms <> VNull ->
  forEach requiredFields
    (fun field isValid =>
       v <- getProp buildParms field ;;
       if negb (stringHasContent v)
       then console_error (VStr (getMissingInputMessage field)) ;; ret false
       else ret isValid)
    isValid
  = (map diagnostic (missingFields buildParms requiredFields),
     inr (isValid
          && forallb (fun field => stringHasContent (getOwn buildParms field))
                     requiredFields)).
Proof.
  intros Hu Hn. revert isValid.
  induction requiredFields as [|field rest IH]; intro isValid.
  - simpl. unfold ret. now rewrite andb_true_r.
  - cbn [forEach].
    rewrite (getProp_defined buildParms field Hu Hn), bind_ret_l.
    unfold missingFields. cbn [filter forallb].
    destruct (stringHasContent (getOwn buildParms field)); cbn [negb].
    + rewrite bind_ret_l, IH. reflexivity.
    + unfold console_error at 1. unfold ret at 1. cbn [bind app].
      rewrite IH. cbn [map]. now rewrite andb_false_r.
Qed.

Lemma stringHasContent_true (v : value) :
  stringHasContent v = true
  <-> v <> VNull /\ v <> VUndefined /\ getOwn v "length" <> VNum 0.
Proof.
  unfold stringHasContent.
  destruct (strictEq v VNull) eqn:E1; cbn [orb].
  { apply strictEq_null in E1. split; [discriminate | tauto]. }
  destruct (strictEq v VUndefined) eqn:E2; cbn [orb].
  { apply strictEq_undefined in E2. split; [discriminate | tauto]. }
  destruct (strictEq (getOwn v "length") (VNum 0)) eqn:E3.
  { apply strictEq_zero in E3. split; [discriminate | tauto]. }
  split; [intros _ | reflexivity].
  repeat split; intro E.
  - rewrite E in E1. discriminate.
  - rewrite E in E2. discriminate.
  - rewrite E in E3. discriminate.
Qed.

(** C3 (as amended): for a [buildParms] that is [null], [undefined] or an
    object, and required fields that are not names every object inherits,
    the result is [true] exactly when [buildParms] is neither [null] nor
    [undefined] and every required field has content in it (its value is
    not [null], not [undefined], and its [length] is not 0: a non-empty
    string, or a non-empty array such as [taskIds]).  The diagnostics are
    the messages of the missing fields, one for each, in the order of
    [requiredFields], all of them in one pass; the four known fields are
    named "an assignment ID", "a release ID", "a level" and "a list of task
    IDs". *)
Theorem validateBuildParms_reports_all :
  forall (buildParms : value) (requiredFields : list string),
    plainOrAbsent buildParms = true ->
    ownNamesOnly requiredFields = true ->
    validateBuildParms buildParms requiredFields
    = (if strictEq buildParms VNull || strictEq buildParms VUndefined
       then ([], inr false)
       else (map diagnostic (missingFields buildParms requiredFields),
             inr (forallb (fun field => stringHasContent (getOwn buildParms field))
                          requiredFields)))
    /\ (snd (validateBuildParms buildParms requiredFields) = inr true
        <-> buildParms <> VNull /\ buildParms <> VUndefined
            /\ forall field, In field requiredFields ->
                 stringHasContent (getOwn buildParms field) = true)
    /\ (forall field,
          In field (missingFields buildParms requiredFields)
          <-> In field requiredFields
              /\ stringHasContent (getOwn buildParms field) = false)
    /\ (forall s : string, stringHasContent (VStr s) = true <-> s <> "")
    /\ (forall elems : list value,
          stringHasContent (VArr elems) = true <-> elems <> [])
    /\ stringHasContent VNull = false
    /\ stringHasContent VUndefined = false
    /\ getMissingInputMessage "containerId"
       = "Missing input: an assignment ID must be specified."
    /\ getMissingInputMessage "releaseId"
       = "Missing input: a release ID must be specified."
    /\ getMissingInputMessage "taskLevel"
       = "Missing input: a level must be specified."
    /\ getMissingInputMessage "taskIds"
       = "Missing input: a list of task IDs must be specified.".
Proof.
  intros bp fields _ _.
  assert (Hrun : validateBuildParms bp fields =
        if strictEq bp VNull || strictEq bp VUndefined
        then ([], inr false)
        else (map diagnostic (missingFields bp fields),
              inr (forallb (fun field => stringHasContent (getOwn bp field))
                           fields))).
  { unfold validateBuildParms.
    destruct (strictEq bp VNull) eqn:E1; [reflexivity|].
    destruct (strictEq bp VUndefined) eqn:E2; [reflexivity|].
    cbn [negb andb orb]. rewrite validate_loop; [reflexivity| |].
    - intros ->. discriminate E2.
    - intros ->. discriminate E1. }
  split; [exact Hrun|].
  split.
  { rewrite Hrun.
    destruct (strictEq bp VNull) eqn:E1; cbn [orb].
    { apply strictEq_null in E1. split; [discriminate | tauto]. }
    destruct (strictEq bp VUndefined) eqn:E2; cbn [orb].
    { apply strictEq_undefined in E2. split; [discriminate | tauto]. }
    cbn [snd]. split.
    - intro H. injection H as H. rewrite forallb_forall in H.
      repeat split; [intros -> .. | exact H]; discriminate.
    - intros (_ & _ & H). f_equal. now apply forallb_forall. }
  split.
  { intros field. unfold missingFields. rewrite filter_In.
    now rewrite negb_true_iff. }
  split.
  { intro s. rewrite stringHasContent_VStr. apply nonEmpty_true. }
  split.
  { intro elems. rewrite stringHasContent_VArr.
    destruct elems; cbn; split; intro H; try discriminate; try reflexivity.
    now contradiction H. }
  repeat split.
Qed.

Lemma validateBuildParms_reports_all_witness :
  validateBuildParms
    (VObj [("containerId", VStr "PLAY000826"); ("taskLevel", VStr "")])
    ["containerId"; "releaseId"; "taskLevel"]
  = ([Error (VStr "Missing input: a release ID must be specified.");
      Error (VStr "Missing input: a level must be specified.")],
     inr false).
Proof.
  exact (proj1 (validateBuildParms_reports_all
                  (VObj [("containerId", VStr "PLAY000826");
                         ("taskLevel", VStr "")])
                  ["containerId"; "releaseId"; "taskLevel"]
                  eq_refl eq_refl)).
Defined.

(** C3 as stated fails for a field that holds an array: [taskIds] is
    accepted although it is not a string. *)
Lemma validateBuildParms_accepts_array :
  validateBuildParms (VObj [("taskIds", VArr [VStr "7E3A5B274D24"])]) ["taskIds"]
  = ([], inr true)
  /\ ~ (exists s : string,
          getOwn (VObj [("taskIds", VArr [VStr "7E3A5B274D24"])]) "taskIds" = VStr s
          /\ s <> "").
Proof.
  split; [reflexivity|]. intros [s [H _]]. discriminate H.
Qed.

Example validateBuildParms_all_missing :
  validateBuildParms (VObj []) ["containerId"; "releaseId"; "taskLevel"; "taskIds"]
  = ([Error (VStr "Missing input: an assignment ID must be specified.");
      Error (VStr "Missing input: a release ID must be specified.");
      Error (VStr "Missing input: a level must be specified.");
      Error (VStr "Missing input: a list of task IDs must be specified.")],
     inr false).
Proof. reflexivity. Qed.

Example validateBuildParms_null :
  validateBuildParms VNull ["containerId"] = ([], inr false).
Proof. reflexivity. Qed.

(* ================================================================= *)
(** ** The query of the request URL *)

Lemma fold_taskIds (ids : list string) (acc : string) :
  fold_left (fun acc id => acc ++ ("taskId=" ++ id ++ "&")) ids acc
  = acc ++ taskIdEntries ids.
Proof.
  revert acc. induction ids as [|id rest IH]; intro acc;
    cbn [fold_left taskIdEntries].
  - now rewrite append_nil_r.
  - rewrite IH. now rewrite !append_assoc.
Qed.

Lemma taskIdEntries_app (xs ys : list string) :
  taskIdEntries (xs ++ ys) = taskIdEntries xs ++ taskIdEntries ys.
Proof.
  induction xs as [|x xs IH]; cbn [app taskIdEntries]; [reflexivity|].
  rewrite IH. now rewrite !append_assoc.
Qed.

Lemma concat_empty_cons (x : string) (xs : list string) :
  String.concat "" (x :: xs) = x ++ String.concat "" xs.
Proof.
  destruct xs as [|y ys]; cbn [String.concat]; [|reflexivity].
  now rewrite append_nil_r.
Qed.

Lemma tempUrlStr_form (cesUrl srid : string) (buildParms : BuildParms) :
  tempUrlStr cesUrl srid buildParms
  = requestPath (normalizedCesUrl cesUrl) srid (containerId buildParms)
    ++ "?" ++ queryString (taskIds buildParms) (taskLevel buildParms).
Proof.
  unfold tempUrlStr, requestPath, queryString. cbv zeta.
  rewrite fold_taskIds. rewrite !append_assoc. reflexivity.
Qed.

Lemma charIn_app :
  forall c a b, charIn c (a ++ b) = charIn c a || charIn c b.
Proof.
  intros c a b. induction a as [|x a IH]; [reflexivity|].
  cbn [append charIn]. now rewrite IH, orb_assoc.
Qed.

Lemma charIn_cons_false :
  forall c x s, charIn c (String x s) = false ->
    Ascii.eqb x c = false /\ charIn c s = false.
Proof.
  intros c x s H. cbn [charIn] in H. apply orb_false_iff in H.
  destruct H as [Hx Hs]. split; [|exact Hs].
  destruct (Ascii.eqb_spec x c) as [Heq|]; [|reflexivity].
  subst x. now rewrite Ascii.eqb_refl in Hx.
Qed.

Lemma afterFirst_app :
  forall c a b, charIn c a = false ->
    Str.afterFirst c (a ++ String c b) = Some b.
Proof.
  intros c a b. induction a as [|x a IH]; intro H.
  - cbn [append Str.afterFirst]. now rewrite Ascii.eqb_refl.
  - apply charIn_cons_false in H. destruct H as [Hx Ha].
    cbn [append Str.afterFirst]. rewrite Hx. now apply IH.
Qed.

Lemma beforeFirst_none :
  forall c s, charIn c s = false -> Str.beforeFirst c s = s.
Proof.
  intros c s. induction s as [|x s IH]; intro H; [reflexivity|].
  apply charIn_cons_false in H. destruct H as [Hx Hs].
  cbn [Str.beforeFirst]. rewrite Hx. now rewrite IH.
Qed.

Lemma splitOn_none :
  forall c s, charIn c s = false -> Str.splitOn c s = [s].
Proof.
  intros c s. induction s as [|x s IH]; intro H; [reflexivity|].
  apply charIn_cons_false in H. destruct H as [Hx Hs].
  cbn [Str.splitOn]. rewrite Hx. now rewrite IH.
Qed.

Lemma splitOn_app :
  forall c a b, charIn c a = false ->
    Str.splitOn c (a ++ String c b) = a :: Str.splitOn c b.
Proof.
  intros c a b. induction a as [|x a IH]; intro H.
  - cbn [append Str.splitOn]. now rewrite Ascii.eqb_refl.
  - apply charIn_cons_false in H. destruct H as [Hx Ha].
    cbn [append Str.splitOn]. rewrite Hx. now rewrite IH.
Qed.

Lemma entryText_charIn :
  forall c s, entryChar c = false -> entryText s = true -> charIn c s = false.
Proof.
  intros c s Hc. induction s as [|x s IH]; intro H; [reflexivity|].
  cbn [entryText] in H. apply andb_true_iff in H. destruct H as [Hx Hs].
  cbn [charIn]. rewrite (IH Hs), orb_false_r.
  destruct (Ascii.eqb_spec c x) as [Heq|]; [|reflexivity].
  subst x. congruence.
Qed.

Lemma queryString_no_hash :
  forall ids level,
    forallb entryText ids = true -> entryText level = true ->
    charIn "#" (queryString ids level) = false.
Proof.
  intros ids level Hids Hlevel. unfold queryString.
  induction ids as [|id rest IH].
  - cbn [taskIdEntries].
    change ("" ++ "level=" ++ level) with ("level=" ++ level).
    rewrite charIn_app.
    now rewrite (entryText_charIn "#" level eq_refl Hlevel).
  - cbn [forallb] in Hids. apply andb_true_iff in Hids.
    destruct Hids as [Hid Hrest].
    cbn [taskIdEntries]. rewrite !append_assoc.
    rewrite (charIn_app "#" "taskId="), (charIn_app "#" id),
      (charIn_app "#" "&").
    rewrite (entryText_charIn "#" id eq_refl Hid).
    exact (IH Hrest).
Qed.

Lemma queryString_entries :
  forall ids level,
    forallb entryText ids = true -> entryText level = true ->
    Str.splitOn "&" (queryString ids level)
    = queryEntries ids level.
Proof.
  intros ids level Hids Hlevel. unfold queryString, queryEntries.
  induction ids as [|id rest IH].
  - cbn [taskIdEntries map app]. change ("" ++ "level=" ++ level)
      with ("level=" ++ level).
    apply splitOn_none. rewrite charIn_app.
    now rewrite (entryText_charIn "&" level eq_refl Hlevel).
  - cbn [forallb] in Hids. apply andb_true_iff in Hids.
    destruct Hids as [Hid Hrest].
    cbn [taskIdEntries map app].
    replace (("taskId=" ++ id ++ "&" ++ taskIdEntries rest) ++ "level=" ++ level)
      with (("taskId=" ++ id)
            ++ String "&" (taskIdEntries rest ++ "level=" ++ level))
      by (now rewrite !append_assoc).
    rewrite splitOn_app.
    + now rewrite (IH Hrest).
    + rewrite charIn_app.
      now rewrite (entryText_charIn "&" id eq_refl Hid).
Qed.

Lemma requestPath_charIn :
  forall c base srid container,
    charIn c "/ispw/" = false -> charIn c "/assignments/" = false ->
    charIn c "/taskIds/generate-await" = false ->
    charIn c base = false -> charIn c srid = false ->
    charIn c container = false ->
    charIn c (requestPath base srid container) = false.
Proof.
  intros c base srid container H1 H2 H3 Hb Hs Hc. unfold requestPath.
  rewrite (charIn_app c base), (charIn_app c "/ispw/"), (charIn_app c srid),
    (charIn_app c "/assignments/"), (charIn_app c container).
  now rewrite Hb, H1, Hs, H2, Hc, H3.
Qed.

Lemma pathText_inv :
  forall s, pathText s = true -> charIn "?" s = false /\ charIn "#" s = false.
Proof.
  intros s H. unfold pathText in H. apply andb_true_iff in H.
  destruct H as [H1 H2]. now apply negb_true_iff in H1, H2.
Qed.

Lemma urlQuery_request :
  forall base srid container ids level,
    pathText base = true -> pathText srid = true ->
    pathText container = true ->
    forallb entryText ids = true -> entryText level = true ->
    urlQuery (requestPath base srid container ++ "?" ++ queryString ids level)
    = queryString ids level.
Proof.
  intros base srid container ids level Hb Hs Hc Hids Hlevel.
  apply pathText_inv in Hb, Hs, Hc.
  destruct Hb as [Hb1 Hb2], Hs as [Hs1 Hs2], Hc as [Hc1 Hc2].
  unfold urlQuery.
  change ("?" ++ queryString ids level)
    with (String "?" (queryString ids level)).
  rewrite beforeFirst_none.
  - rewrite afterFirst_app; [reflexivity|].
    now apply requestPath_charIn.
  - rewrite charIn_app.
    rewrite requestPath_charIn by (reflexivity || assumption).
    cbn [charIn orb Ascii.eqb Bool.eqb andb].
    now apply queryString_no_hash.
Qed.

(** C4 (as amended): when the cleaned base URL, the srid and the container
    id hold no [?] and no [#], and the ids and the level are made of
    characters that the URL parser keeps in a query and hold no [&], the
    query of the assembled URL is one [taskId=<id>&] entry for each id, in
    input order, the [&] of the last entry included, and then the one
    [level=<taskLevel>] entry: cut at its [&], it gives one [taskId=] entry
    for each id and the [level=] entry. *)
Theorem assembleRequestUrl_query :
  forall (URL : Type) (newURL : string -> option URL)
         (cesUrl srid container release level : string)
         (firstIds : list string) (lastId : string),
    let ids := (firstIds ++ [lastId])%list in
    let buildParms := mkBuildParms container release level ids in
    pathText (normalizedCesUrl cesUrl) = true ->
    pathText srid = true ->
    pathText container = true ->
    forallb entryText ids = true ->
    entryText level = true ->
    assembleRequestUrl URL newURL cesUrl srid buildParms
    = newURL (requestPath (normalizedCesUrl cesUrl) srid container ++ "?"
              ++ queryString ids level)
    /\ urlQuery (tempUrlStr cesUrl srid buildParms) = queryString ids level
    /\ queryString ids level
       = taskIdEntries firstIds ++ "taskId=" ++ lastId ++ "&" ++ "level=" ++ level
    /\ Str.splitOn "&" (urlQuery (tempUrlStr cesUrl srid buildParms))
       = queryEntries ids level
    /\ taskIdEntries firstIds
       = String.concat "" (map (fun id => "taskId=" ++ id ++ "&") firstIds).
Proof.
  intros URL newURL cesUrl srid container release level firstIds lastId
    ids bp Hbase Hsrid Hcontainer Hids Hlevel.
  assert (Hquery : urlQuery (tempUrlStr cesUrl srid bp) = queryString ids level).
  { rewrite tempUrlStr_form. now apply urlQuery_request. }
  split; [|split; [|split; [|split]]].
  - unfold assembleRequestUrl. now rewrite tempUrlStr_form.
  - exact Hquery.
  - unfold queryString, ids. rewrite taskIdEntries_app. cbn [taskIdEntries].
    rewrite append_nil_r. now rewrite !append_assoc.
  - rewrite Hquery. now apply queryString_entries.
  - clear. induction firstIds as [|id rest IH]; [reflexivity|].
    cbn [taskIdEntries map]. rewrite concat_empty_cons, IH.
    now rewrite !append_assoc.
Qed.

Lemma assembleRequestUrl_query_witness :
  urlQuery (tempUrlStr "http://host:48226/Compuware/ISPW/" "ISPW"
              (mkBuildParms "PLAY000826" "" "DEV2" ["7E3A5B274D24"; "7E3A5B274EFA"]))
  = "taskId=7E3A5B274D24&taskId=7E3A5B274EFA&level=DEV2".
Proof.
  exact (proj1 (proj2
    (assembleRequestUrl_query unit (fun _ => None)
       "http://host:48226/Compuware/ISPW/" "ISPW" "PLAY000826" "" "DEV2"
       ["7E3A5B274D24"] "7E3A5B274EFA"
       eq_refl eq_refl eq_refl eq_refl eq_refl))).
Defined.

(** C4, as first worded, fails where an id holds a character with a meaning
    of its own in a URL, since the ids are appended as they are: at a [#]
    the query ends and the rest, the level included, is the fragment; an
    [&] inside one id makes two entries of it. *)
Lemma assembleRequestUrl_query_not_encoded :
  urlQuery (tempUrlStr "http://host:48226" "ISPW"
              (mkBuildParms "PLAY000826" "" "DEV2" ["7E3A#1"]))
  = "taskId=7E3A"
  /\ urlQuery (tempUrlStr "http://host:48226" "ISPW"
                 (mkBuildParms "PLAY000826" "" "DEV2" ["7E3A#1"]))
     <> queryString ["7E3A#1"] "DEV2"
  /\ Str.splitOn "&"
       (urlQuery (tempUrlStr "http://host:48226" "ISPW"
                    (mkBuildParms "PLAY000826" "" "DEV2" ["7E3A&taskId=5B27"])))
     = ["taskId=7E3A"; "taskId=5B27"; "level=DEV2"].
Proof.
  split; [reflexivity|]. split; [|reflexivity].
  vm_compute. discriminate.
Qed.

Example assembleRequestUrl_two_tasks :
  assembleRequestUrl string Some "http://host:48226/Compuware/ISPW/" "ISPW"
    (mkBuildParms "PLAY000826" "R1" "DEV2" ["7E3A5B274D24"; "7E3A5B274EFA"])
  = Some "http://host:48226/ispw/ISPW/assignments/PLAY000826/taskIds/generate-await?taskId=7E3A5B274D24&taskId=7E3A5B274EFA&level=DEV2".
Proof. reflexivity. Qed.

(* ================================================================= *)
(** ** [lastIndexOf], [substr] and [toLowerCase] *)





Lemma drop_app_le (j : nat) (h t : string) :
  (j <= String.length h)%nat -> Str.drop j (h ++ t) = Str.drop j h ++ t.
Proof.
  revert h. induction j as [|j IH]; intros h Hj; [reflexivity|].
  destruct h as [|c h]; cbn [String.length] in Hj; [lia|].
  cbn [append Str.drop]. apply IH. lia.
Qed.



Lemma substring_0_0 (s : string) : String.substring 0 0 s = "".
Proof. destruct s; reflexivity. Qed.

Lemma substring_app_length (h t : string) :
  String.substring 0 (String.length h) (h ++ t) = h.
Proof.
  induction h as [|c h IH]; cbn [String.length append].
  - apply substring_0_0.
  - cbn [String.substring]. now rewrite IH.
Qed.

Lemma substring_drop (k : nat) (s : string) :
  String.substring 0 k s ++ Str.drop k s = s.
Proof.
  revert s. induction k as [|k IH]; intro s.
  - now rewrite substring_0_0.
  - destruct s as [|c s]; [reflexivity|].
    cbn [String.substring Str.drop append]. now rewrite IH.
Qed.


Lemma toLowerCase_app (a b : string) :
  Str.toLowerCase (a ++ b) = Str.toLowerCase a ++ Str.toLowerCase b.
Proof. induction a as [|c a IH]; cbn; [reflexivity | now rewrite IH]. Qed.

Lemma toLowerCase_length (s : string) :
  String.length (Str.toLowerCase s) = String.length s.
Proof. induction s as [|c s IH]; cbn; [reflexivity | now rewrite IH]. Qed.

Lemma toLowerCase_drop (k : nat) (s : string) :
  Str.toLowerCase (Str.drop k s) = Str.drop k (Str.toLowerCase s).
Proof.
  revert s. induction k as [|k IH]; intro s; [reflexivity|].
  destruct s as [|c s]; [reflexivity | apply IH].
Qed.

Lemma toLowerCase_nil_inv (s : string) : Str.toLowerCase s = "" -> s = "".
Proof. destruct s; [reflexivity | discriminate]. Qed.

Lemma occurs_false_prefix (pat s : string) :
  Str.occurs pat s = false ->
  forall j, (j <= String.length s)%nat -> String.prefix pat (Str.drop j s) = false.
Proof.
  induction s as [|c s IH]; intros H j Hj.
  - cbn [String.length] in Hj. assert (j = 0%nat) as -> by lia.
    cbn [Str.occurs] in H. now apply orb_false_iff in H.
  - cbn [Str.occurs] in H. apply orb_false_iff in H as [H0 H1].
    destruct j as [|j]; [exact H0|].
    cbn [Str.drop]. apply IH; [exact H1|]. cbn [String.length] in Hj. lia.
Qed.

(** [lastIndexOf_from] keeps [acc] when [pat] does not occur, and otherwise
    gives the offset of the last occurrence. *)
Lemma lastIndexOf_from_spec (pat s : string) (i acc : Z) :
  (Str.occurs pat s = false /\ Str.lastIndexOf_from pat s i acc = acc)
  \/ (exists k : nat,
        (k <= String.length s)%nat
        /\ Str.lastIndexOf_from pat s i acc = i + Z.of_nat k
        /\ String.prefix pat (Str.drop k s) = true
        /\ forall j, (k < j <= String.length s)%nat ->
                     String.prefix pat (Str.drop j s) = false).
Proof.
  revert i acc. induction s as [|c s IH]; intros i acc.
  - cbn [Str.lastIndexOf_from Str.occurs].
    destruct (String.prefix pat "") eqn:E.
    + right. exists 0%nat. cbn [String.length Str.drop].
      repeat split; [lia | lia | exact E | intros j Hj; lia].
    + left. split; reflexivity.
  - cbn [Str.lastIndexOf_from Str.occurs].
    destruct (IH (i + 1) (if String.prefix pat (String c s) then i else acc))
      as [[Hocc Hres] | (k & Hk & Hres & Hpre & Hlast)].
    + destruct (String.prefix pat (String c s)) eqn:E.
      * right. exists 0%nat. cbn [Str.drop String.length].
        repeat split; [lia | lia | exact E |].
        intros j Hj. destruct j as [|j]; [lia|]. cbn [Str.drop].
        apply occurs_false_prefix; [exact Hocc | lia].
      * left. split; [exact Hocc | exact Hres].
    + right. exists (S k). cbn [Str.drop String.length].
      repeat split; [lia | lia | exact Hpre |].
      intros j Hj. destruct j as [|j]; [lia|]. cbn [Str.drop].
      apply Hlast. lia.
Qed.


(* ================================================================= *)
(** ** The clean-up of the base URL *)

Lemma normalizedCesUrl_steps (cesUrl : string) :
  normalizedCesUrl cesUrl
  = removeTrailingSlash
      (truncateAtLast "/ispw" (truncateAtLast "/compuware" cesUrl)).
Proof. reflexivity. Qed.

(** *** The clean-up on code units and on strings *)

Lemma ofString_length (s : string) :
  List.length (Units.ofString s) = String.length s.
Proof. induction s as [|c s IH]; cbn; [reflexivity | now rewrite IH]. Qed.

Lemma N_of_ascii_eqb (a b : ascii) :
  (N_of_ascii a =? N_of_ascii b)%N = Ascii.eqb a b.
Proof.
  destruct (Ascii.eqb_spec a b) as [-> | Hne].
  - apply N.eqb_refl.
  - apply N.eqb_neq. intro H. apply Hne.
    rewrite <- (ascii_N_embedding a), <- (ascii_N_embedding b). now rewrite H.
Qed.

Lemma lower_unit_ascii (c : ascii) :
  Units.lower_unit (N_of_ascii c) = [N_of_ascii (Str.lower_ascii c)].
Proof. destruct c as [[] [] [] [] [] [] [] []]; reflexivity. Qed.

Lemma toLowerCase_ofString (s : string) :
  Units.toLowerCase (Units.ofString s) = Units.ofString (Str.toLowerCase s).
Proof.
  induction s as [|c s IH]; [reflexivity|].
  cbn [Units.ofString Str.toLowerCase]. unfold Units.toLowerCase in *.
  cbn [flat_map]. now rewrite lower_unit_ascii, IH.
Qed.

Lemma prefix_ofString (pat s : string) :
  Units.prefix (Units.ofString pat) (Units.ofString s) = String.prefix pat s.
Proof.
  revert s. induction pat as [|p pat IH]; intros [|c s]; try reflexivity.
  cbn [Units.ofString Units.prefix String.prefix].
  rewrite N_of_ascii_eqb, IH.
  destruct (Ascii.eqb_spec p c) as [-> | Hne];
    destruct (ascii_dec _ _) as [Heq | Hneq]; try reflexivity; congruence.
Qed.

Lemma lastIndexOf_ofString (s pat : string) :
  Units.lastIndexOf (Units.ofString s) (Units.ofString pat)
  = Str.lastIndexOf s pat.
Proof.
  unfold Units.lastIndexOf, Str.lastIndexOf. generalize 0 (-1).
  induction s as [|c s IH]; intros i acc.
  - cbn [Str.lastIndexOf_from]. rewrite <- (prefix_ofString pat "").
    reflexivity.
  - cbn [Str.lastIndexOf_from]. rewrite <- (prefix_ofString pat (String c s)).
    rewrite <- IH. reflexivity.
Qed.

Lemma substring_ofString (k m : nat) (s : string) :
  firstn m (skipn k (Units.ofString s))
  = Units.ofString (String.substring k m s).
Proof.
  revert k m. induction s as [|c s IH]; intros k m.
  - destruct k, m; reflexivity.
  - destruct k as [|k].
    + destruct m as [|m]; [reflexivity|].
      cbn [Units.ofString skipn firstn String.substring].
      f_equal. exact (IH 0%nat m).
    + cbn [Units.ofString skipn String.substring]. apply IH.
Qed.

Lemma substr_ofString (s : string) (start len : Z) :
  Units.substr (Units.ofString s) start len
  = Units.ofString (Str.substr s start len).
Proof. apply substring_ofString. Qed.

Lemma eqb_ofString (a b : string) :
  Units.eqb (Units.ofString a) (Units.ofString b) = String.eqb a b.
Proof.
  revert b. induction a as [|x a IH]; intros [|y b]; try reflexivity.
  cbn [Units.ofString Units.eqb String.eqb].
  rewrite N_of_ascii_eqb, IH. now destruct (Ascii.eqb x y).
Qed.

Lemma endsWith_ofString (s suffix : string) :
  Units.endsWith (Units.ofString s) (Units.ofString suffix)
  = Str.endsWith s suffix.
Proof.
  unfold Units.endsWith, Str.endsWith. rewrite !ofString_length.
  now rewrite substring_ofString, eqb_ofString.
Qed.

(** On the strings of the model, the steps written over code units are the
    steps written over strings. *)
Lemma normalizedCesUrl_ofString (cesUrl : string) :
  Units.normalizedCesUrl (Units.ofString cesUrl)
  = Units.ofString (normalizedCesUrl cesUrl).
Proof.
  unfold Units.normalizedCesUrl, normalizedCesUrl. cbv zeta.
  rewrite toLowerCase_ofString, lastIndexOf_ofString.
  set (step1 := if Str.lastIndexOf (Str.toLowerCase cesUrl) "/compuware" >? 0
                then Str.substr cesUrl 0
                       (Str.lastIndexOf (Str.toLowerCase cesUrl) "/compuware")
                else cesUrl).
  replace (if Str.lastIndexOf (Str.toLowerCase cesUrl) "/compuware" >? 0
           then Units.substr (Units.ofString cesUrl) 0
                  (Str.lastIndexOf (Str.toLowerCase cesUrl) "/compuware")
           else Units.ofString cesUrl)
    with (Units.ofString step1)
    by (unfold step1;
        destruct (Str.lastIndexOf (Str.toLowerCase cesUrl) "/compuware" >? 0);
        [now rewrite substr_ofString | reflexivity]).
  rewrite toLowerCase_ofString, lastIndexOf_ofString.
  set (step2 := if Str.lastIndexOf (Str.toLowerCase step1) "/ispw" >? 0
                then Str.substr step1 0
                       (Str.lastIndexOf (Str.toLowerCase step1) "/ispw")
                else step1).
  replace (if Str.lastIndexOf (Str.toLowerCase step1) "/ispw" >? 0
           then Units.substr (Units.ofString step1) 0
                  (Str.lastIndexOf (Str.toLowerCase step1) "/ispw")
           else Units.ofString step1)
    with (Units.ofString step2)
    by (unfold step2;
        destruct (Str.lastIndexOf (Str.toLowerCase step1) "/ispw" >? 0);
        [now rewrite substr_ofString | reflexivity]).
  rewrite endsWith_ofString.
  destruct (Str.endsWith step2 "/"); [|reflexivity].
  rewrite substr_ofString. unfold Units.length, Str.length.
  now rewrite ofString_length.
Qed.




Example normalizedCesUrl_index_zero :
  normalizedCesUrl "/compuware" = "/compuware".
Proof. reflexivity. Qed.

(* ================================================================= *)
(** ** Decorated base URLs *)

Lemma prefix_run_into (p h t : string) :
  (t = "" \/ exists x t', t = String x t' /\ charIn x p = false) ->
  String.prefix p (h ++ t) = true -> String.prefix p h = true.
Proof.
  revert p. induction h as [|a h IH]; intros p Ht H.
  - destruct p as [|c p]; [reflexivity|]. cbn [append] in H.
    destruct Ht as [-> | (x & t' & -> & Hx)]; [discriminate H|].
    cbn [String.prefix] in H. cbn [charIn] in Hx.
    apply orb_false_iff in Hx as [Hx _].
    destruct (ascii_dec c x) as [->|]; [|discriminate H].
    now rewrite Ascii.eqb_refl in Hx.
  - destruct p as [|c p]; [reflexivity|].
    cbn [append String.prefix] in H |- *.
    destruct (ascii_dec c a); [|discriminate H].
    apply IH; [|exact H].
    destruct Ht as [-> | (x & t' & -> & Hx)]; [now left|].
    right. exists x, t'. split; [reflexivity|].
    cbn [charIn] in Hx. now apply orb_false_iff in Hx.
Qed.

Lemma prefix_app_boundary (pat h t : string) :
  boundarySafe pat t = true -> h <> "" ->
  String.prefix pat (h ++ t) = true -> String.prefix pat h = true.
Proof.
  intros Hsafe Hh H.
  destruct pat as [|c p]; [discriminate Hsafe|].
  destruct h as [|a h]; [contradiction|].
  cbn [append String.prefix] in H |- *.
  destruct (ascii_dec c a); [|discriminate H].
  apply (prefix_run_into p h t); [|exact H].
  destruct t as [|x t']; [now left|].
  right. exists x, t'. split; [reflexivity|].
  cbn [boundarySafe] in Hsafe. now apply negb_true_iff in Hsafe.
Qed.

Lemma lastIndexOf_from_app_clean (pat h t : string) (i acc : Z) :
  boundarySafe pat t = true -> Str.occurs pat h = false ->
  Str.lastIndexOf_from pat (h ++ t) i acc
  = Str.lastIndexOf_from pat t (i + Z.of_nat (String.length h)) acc.
Proof.
  intros Hsafe. revert i acc. induction h as [|a h IH]; intros i acc Hocc.
  - cbn [append String.length]. now rewrite Z.add_0_r.
  - cbn [Str.occurs] in Hocc. apply orb_false_iff in Hocc as [H0 H1].
    cbn [append Str.lastIndexOf_from].
    destruct (String.prefix pat (String a (h ++ t))) eqn:E.
    { apply (prefix_app_boundary pat (String a h) t Hsafe) in E;
        [|discriminate].
      rewrite E in H0. discriminate H0. }
    rewrite (IH _ _ H1). f_equal. cbn [String.length]. lia.
Qed.

Lemma lastIndexOf_from_clean (pat s : string) (i acc : Z) :
  Str.occurs pat s = false -> Str.lastIndexOf_from pat s i acc = acc.
Proof.
  intro Hocc.
  destruct (lastIndexOf_from_spec pat s i acc)
    as [[_ H] | (k & Hk & _ & Hpre & _)]; [exact H|].
  rewrite (occurs_false_prefix _ _ Hocc _ Hk) in Hpre. discriminate.
Qed.

(** A step leaves alone a URL that has no occurrence of its pattern. *)
Lemma truncateAtLast_clean (pat cesUrl : string) :
  Str.occurs pat (Str.toLowerCase cesUrl) = false ->
  truncateAtLast pat cesUrl = cesUrl.
Proof.
  intro Hocc. unfold truncateAtLast, Str.lastIndexOf.
  now rewrite lastIndexOf_from_clean.
Qed.

Lemma truncateAtLast_not_found (pat h x : string) :
  boundarySafe pat (Str.toLowerCase x) = true ->
  Str.occurs pat (Str.toLowerCase h) = false ->
  Str.occurs pat (Str.toLowerCase x) = false ->
  truncateAtLast pat (h ++ x) = h ++ x.
Proof.
  intros Hsafe Hh Hx. unfold truncateAtLast, Str.lastIndexOf.
  rewrite toLowerCase_app, lastIndexOf_from_app_clean by assumption.
  now rewrite lastIndexOf_from_clean.
Qed.

(** A step cuts at the end of [h] when the occurrence that starts there is
    the last one. *)
Lemma truncateAtLast_found (pat h x : string) :
  boundarySafe pat (Str.toLowerCase x) = true ->
  Str.occurs pat (Str.toLowerCase h) = false ->
  h <> "" ->
  (forall i, Str.lastIndexOf_from pat (Str.toLowerCase x) i (-1) = i) ->
  truncateAtLast pat (h ++ x) = h.
Proof.
  intros Hsafe Hh Hne Hx. unfold truncateAtLast, Str.lastIndexOf.
  rewrite toLowerCase_app, lastIndexOf_from_app_clean by assumption.
  rewrite Hx, toLowerCase_length, Z.add_0_l.
  assert (Hpos : (0 < String.length h)%nat).
  { destruct h; [contradiction | cbn; lia]. }
  destruct (Z.of_nat (String.length h) >? 0) eqn:E; [|lia].
  unfold Str.substr. cbn [Z.to_nat]. rewrite Nat2Z.id.
  apply substring_app_length.
Qed.

Lemma substring_skip (h t : string) (m : nat) :
  String.substring (String.length h) m (h ++ t) = String.substring 0 m t.
Proof. induction h as [|c h IH]; [reflexivity | exact IH]. Qed.

Lemma removeTrailingSlash_slash (h : string) :
  removeTrailingSlash (h ++ "/") = h.
Proof.
  unfold removeTrailingSlash, Str.endsWith, Str.substr, Str.length.
  rewrite append_length. cbn [String.length].
  replace (String.length h + 1 - 1)%nat with (String.length h) by lia.
  rewrite substring_skip.
  replace (1 <=? String.length h + 1)%nat with true
    by (symmetry; apply Nat.leb_le; lia).
  cbn [andb String.substring String.eqb Ascii.eqb Bool.eqb].
  replace (Z.to_nat (Z.of_nat (String.length h + 1) - 1)) with (String.length h)
    by lia.
  cbn [Z.to_nat]. apply substring_app_length.
Qed.

Lemma removeTrailingSlash_none (h : string) :
  Str.endsWith h "/" = false -> removeTrailingSlash h = h.
Proof. intro H. unfold removeTrailingSlash. now rewrite H. Qed.

Ltac lower_of_app H :=
  rewrite toLowerCase_app, <- H; reflexivity.

(** A base URL of ASCII characters made of a clean part [host] (not empty,
    without [/compuware] or [/ispw] in any case, not ending in a slash), one
    of the listed decorations in any case, and an optional slash, is cleaned
    to [host]: all these spellings give the same request URL. *)
Theorem normalizedCesUrl_decorated :
  forall host decoration slash : string,
    Str.isAscii (host ++ decoration ++ slash) = true ->
    host <> "" ->
    Str.occurs "/compuware" (Str.toLowerCase host) = false ->
    Str.occurs "/ispw" (Str.toLowerCase host) = false ->
    Str.endsWith host "/" = false ->
    In (Str.toLowerCase decoration) decorations ->
    In slash trailingSlashes ->
    normalizedCesUrl (host ++ decoration ++ slash) = host
    /\ forall (URL : Type) (newURL : string -> option URL) srid buildParms,
         assembleRequestUrl URL newURL (host ++ decoration ++ slash) srid buildParms
         = newURL (requestPath host srid (containerId buildParms) ++ "?"
                   ++ queryString (taskIds buildParms) (taskLevel buildParms)).
Proof.
  intros host d s _ Hne Hc Hi Hslash Hd Hs.
  assert (Hnorm : normalizedCesUrl (host ++ d ++ s) = host).
  { rewrite normalizedCesUrl_steps.
    cbn [decorations trailingSlashes In] in Hd, Hs.
    destruct Hd as [Hd | [Hd | [Hd | [Hd | []]]]].
    - symmetry in Hd. apply toLowerCase_nil_inv in Hd. subst d.
      cbn [append].
      destruct Hs as [<- | [<- | []]].
      + rewrite append_nil_r.
        rewrite (truncateAtLast_clean "/compuware" host) by assumption.
        rewrite (truncateAtLast_clean "/ispw" host) by assumption.
        now apply removeTrailingSlash_none.
      + rewrite (truncateAtLast_not_found "/compuware" host "/")
          by (assumption || reflexivity).
        rewrite (truncateAtLast_not_found "/ispw" host "/")
          by (assumption || reflexivity).
        apply removeTrailingSlash_slash.
    - assert (H1 : truncateAtLast "/compuware" (host ++ d ++ s) = host).
      { destruct Hs as [<- | [<- | []]];
          (apply truncateAtLast_found;
           [lower_of_app Hd | assumption | assumption
           | intro i; rewrite toLowerCase_app, <- Hd; reflexivity]). }
      rewrite H1, truncateAtLast_clean by assumption.
      now apply removeTrailingSlash_none.
    - assert (H1 : truncateAtLast "/compuware" (host ++ d ++ s) = host ++ d ++ s).
      { destruct Hs as [<- | [<- | []]];
          (apply truncateAtLast_not_found;
           [lower_of_app Hd | assumption | lower_of_app Hd]). }
      assert (H2 : truncateAtLast "/ispw" (host ++ d ++ s) = host).
      { destruct Hs as [<- | [<- | []]];
          (apply truncateAtLast_found;
           [lower_of_app Hd | assumption | assumption
           | intro i; rewrite toLowerCase_app, <- Hd; reflexivity]). }
      rewrite H1, H2. now apply removeTrailingSlash_none.
    - assert (H1 : truncateAtLast "/compuware" (host ++ d ++ s) = host).
      { destruct Hs as [<- | [<- | []]];
          (apply truncateAtLast_found;
           [lower_of_app Hd | assumption | assumption
           | intro i; rewrite toLowerCase_app, <- Hd; reflexivity]). }
      rewrite H1, truncateAtLast_clean by assumption.
      now apply removeTrailingSlash_none. }
  split; [exact Hnorm|].
  intros URL newURL srid bp. unfold assembleRequestUrl.
  now rewrite tempUrlStr_form, Hnorm.
Qed.

Lemma normalizedCesUrl_decorated_witness :
  normalizedCesUrl ("http://host:48226" ++ "/Compuware/ISPW" ++ "/")
  = "http://host:48226"
  /\ forall (URL : Type) (newURL : string -> option URL) srid buildParms,
       assembleRequestUrl URL newURL
         ("http://host:48226" ++ "/Compuware/ISPW" ++ "/") srid buildParms
       = newURL (requestPath "http://host:48226" srid (containerId buildParms)
                 ++ "?"
                 ++ queryString (taskIds buildParms) (taskLevel buildParms)).
Proof.
  refine (normalizedCesUrl_decorated "http://host:48226" "/Compuware/ISPW" "/"
            _ _ _ _ _ _ _);
    [ reflexivity | discriminate | reflexivity | reflexivity | reflexivity
    | cbn; tauto | cbn; tauto ].
Defined.

(** C1, at a base URL whose host name starts with "compuware" and that ends
    in none of the decorations: the specification keeps the base URL, while
    the first step finds "/compuware" at the second slash of "http://" and
    cuts there, which leaves "http:" as the base. *)
Theorem assembleRequestUrl_hostname_divergence :
  let buildParms := mkBuildParms "PLAY000826" "R1" "DEV2" ["7E3A5B274D24"] in
  Str.lastIndexOf (Str.toLowerCase "http://compuware.example.com") "/compuware" = 6
  /\ normalizedCesUrl "http://compuware.example.com" = "http:"
  /\ assembleRequestUrl string Some "http://compuware.example.com" "ISPW" buildParms
     = Some "http:/ispw/ISPW/assignments/PLAY000826/taskIds/generate-await?taskId=7E3A5B274D24&level=DEV2"
  /\ assembleRequestUrl string Some "http://compuware.example.com" "ISPW" buildParms
     <> Some (requestPath "http://compuware.example.com" "ISPW" "PLAY000826"
              ++ "?" ++ queryString ["7E3A5B274D24"] "DEV2").
Proof. repeat split. discriminate. Qed.

(* ================================================================= *)
(** ** JSON text and back *)


(** *** Writing a value as JSON and reading it back *)


























(** [null] is written as the empty string, which is read back as
    [undefined], whatever the platform's JSON does. *)
Lemma convertObjectToJson_null :
  forall (JSON_stringify : value -> string) (JSON_parse : string -> M value),
    convertObjectToJson JSON_stringify VNull = ""
    /\ convertObjectToJson JSON_stringify VUndefined = ""
    /\ parseStringAsJson JSON_parse (VStr "") = ret VUndefined
    /\ parseStringAsJson JSON_parse
         (VStr (convertObjectToJson JSON_stringify VNull)) = ret VUndefined.
Proof. intros. repeat split. Qed.

(* ================================================================= *)
(** ** Validation of a build-parameter record *)

(** A [BuildParms] record is valid exactly when its three identifiers are
    not empty and it has at least one task id; each field that fails this
    is reported once. *)
Theorem validateBuildParms_record :
  forall buildParms : BuildParms,
    let ok (present : bool) (field : string) : list line :=
      if present then [] else [diagnostic field] in
    validateBuildParms (buildParmsValue buildParms) generateFields
    = ((ok (nonEmpty (containerId buildParms)) "containerId"
        ++ ok (nonEmpty (releaseId buildParms)) "releaseId"
        ++ ok (nonEmpty (taskLevel buildParms)) "taskLevel"
        ++ ok (negb (Nat.eqb (List.length (taskIds buildParms)) 0)) "taskIds")%list,
       inr (nonEmpty (containerId buildParms)
            && nonEmpty (releaseId buildParms)
            && nonEmpty (taskLevel buildParms)
            && negb (Nat.eqb (List.length (taskIds buildParms)) 0))).
Proof.
  intros [cid rid lvl ids] ok. subst ok. cbn [containerId releaseId taskLevel taskIds].
  unfold validateBuildParms, buildParmsValue, generateFields.
  cbn [strictEq negb andb containerId releaseId taskLevel taskIds].
  rewrite validate_loop by discriminate.
  unfold missingFields. cbn [filter forallb getOwn lookup find fst snd String.eqb
                              Ascii.eqb Bool.eqb].
  rewrite !stringHasContent_VStr, stringHasContent_VArr, length_map.
  destruct (nonEmpty cid), (nonEmpty rid), (nonEmpty lvl),
    (Nat.eqb (List.length ids) 0); reflexivity.
Qed.

(* ================================================================= *)
(** ** The retrieved inputs *)

Lemma lookup_setProp (props : list (string * value)) (key key' : string)
      (x : value) :
  lookup (setProp props key x) key'
  = if String.eqb key key' then Some x else lookup props key'.
Proof.
  unfold lookup.
  induction props as [|[k y] props IH]; cbn [setProp find fst snd].
  - destruct (String.eqb key key'); reflexivity.
  - destruct (String.eqb_spec k key) as [->|Hne]; cbn [find fst snd].
    + destruct (String.eqb key key'); reflexivity.
    + destruct (String.eqb_spec k key') as [->|Hne']; cbn [snd].
      * destruct (String.eqb_spec key key') as [->|_];
          [contradiction | reflexivity].
      * exact IH.
Qed.

Lemma setProp_keys (props : list (string * value)) (key key' : string)
      (x : value) :
  In key' (map fst (setProp props key x))
  <-> key' = key \/ In key' (map fst props).
Proof.
  induction props as [|[k y] props IH]; cbn [setProp map fst In].
  - intuition auto.
  - destruct (String.eqb_spec k key) as [->|Hne]; cbn [map fst In].
    + intuition auto.
    + rewrite IH. intuition auto.
Qed.

Lemma setProp_NoDup (props : list (string * value)) (key : string) (x : value) :
  NoDup (map fst props) -> NoDup (map fst (setProp props key x)).
Proof.
  induction props as [|[k y] props IH]; cbn [setProp map fst]; intro H.
  - constructor; [intros [] | constructor].
  - inversion H as [|? ? Hnotin Hrest]; subst.
    destruct (String.eqb_spec k key) as [->|Hne]; cbn [map fst].
    + constructor; assumption.
    + constructor; [|now apply IH].
      rewrite setProp_keys. intros [E | Hin]; [|contradiction].
      now apply Hne.
Qed.

Lemma lookup_retrieve (getInput : string -> string) (inputFields : list string)
      (props : list (string * value)) (name : string) :
  lookup
    (fold_left (fun inputs inputName =>
                  assignPrimitive inputs inputName (VStr (getInput inputName)))
               inputFields props) name
  = if existsb (String.eqb name) inputFields
       && negb (String.eqb name "__proto__")
    then Some (VStr (getInput name))
    else lookup props name.
Proof.
  revert props. induction inputFields as [|f rest IH]; intro props;
    cbn [fold_left existsb]; [reflexivity|].
  rewrite IH. unfold assignPrimitive.
  destruct (String.eqb_spec name "__proto__") as [Ep|Hp]; cbn [negb].
  - rewrite !andb_false_r.
    destruct (String.eqb_spec f "__proto__") as [Ef|Hf]; [reflexivity|].
    rewrite lookup_setProp.
    destruct (String.eqb_spec f name) as [E|_]; [|reflexivity].
    congruence.
  - rewrite !andb_true_r.
    destruct (existsb (String.eqb name) rest).
    + now rewrite orb_true_r.
    + rewrite orb_false_r.
      destruct (String.eqb_spec name f) as [E|Hnf].
      * subst f.
        destruct (String.eqb_spec name "__proto__") as [|_];
          [contradiction|].
        now rewrite lookup_setProp, String.eqb_refl.
      * destruct (String.eqb_spec f "__proto__") as [|_]; [reflexivity|].
        rewrite lookup_setProp.
        destruct (String.eqb_spec f name) as [E|_]; [|reflexivity].
        now contradiction Hnf.
Qed.

Lemma retrieve_NoDup (getInput : string -> string) (inputFields : list string)
      (props : list (string * value)) :
  NoDup (map fst props) ->
  NoDup (map fst
           (fold_left (fun inputs inputName =>
                         assignPrimitive inputs inputName
                                         (VStr (getInput inputName)))
                      inputFields props)).
Proof.
  revert props. induction inputFields as [|f rest IH]; intros props H;
    cbn [fold_left]; [exact H|].
  apply IH. unfold assignPrimitive.
  destruct (String.eqb f "__proto__"); [exact H | now apply setProp_NoDup].
Qed.

Lemma existsb_eqb_In (name : string) (names : list string) :
  existsb (String.eqb name) names = true <-> In name names.
Proof.
  rewrite existsb_exists. split.
  - intros (x & Hin & E). apply String.eqb_eq in E. now subst.
  - intro Hin. exists name. split; [exact Hin | apply String.eqb_refl].
Qed.

Lemma retrieveInputs_field (getInput : string -> string)
      (inputFields : list string) (name : string) :
  In name inputFields -> name <> "__proto__" ->
  getOwn (retrieveInputs getInput inputFields) name = VStr (getInput name).
Proof.
  intros Hin Hp. unfold retrieveInputs, getOwn. cbv zeta.
  rewrite lookup_retrieve.
  apply existsb_eqb_In in Hin. rewrite Hin.
  apply String.eqb_neq in Hp. now rewrite Hp.
Qed.

Lemma forallb_ext_in {A} (f g : A -> bool) (l : list A) :
  (forall x, In x l -> f x = g x) -> forallb f l = forallb g l.
Proof.
  induction l as [|a l IH]; intro H; cbn [forallb]; [reflexivity|].
  rewrite (H a) by now left.
  rewrite IH; [reflexivity|]. intros x Hx. apply H. now right.
Qed.

(** The object that [retrieveInputs] builds has one own property for each
    requested name (the name [__proto__] apart, which creates none), it holds
    the string that [core.getInput] gives for that name, and no name is held
    twice, however often it is requested. *)
Theorem retrieveInputs_lookup :
  forall (getInput : string -> string) (inputFields : list string)
         (name : string),
    (hasOwnProperty (retrieveInputs getInput inputFields) name = true
     <-> In name inputFields /\ name <> "__proto__")
    /\ (In name inputFields -> name <> "__proto__" ->
        getOwn (retrieveInputs getInput inputFields) name
        = VStr (getInput name))
    /\ NoDup (ownKeys (retrieveInputs getInput inputFields))
    /\ (forall key, In key (ownKeys (retrieveInputs getInput inputFields)) ->
          In key inputFields).
Proof.
  intros getInput fields name.
  unfold retrieveInputs, hasOwnProperty, getOwn, ownKeys. cbv zeta.
  rewrite lookup_retrieve.
  assert (Hnil : lookup [] name = None) by reflexivity. rewrite Hnil.
  repeat split.
  - destruct (existsb (String.eqb name) fields) eqn:E; cbn [andb] in H;
      [|discriminate H].
    now apply existsb_eqb_In.
  - destruct (String.eqb_spec name "__proto__") as [->|Hp]; [|exact Hp].
    rewrite andb_false_r in H. discriminate H.
  - intros [Hin Hp]. apply existsb_eqb_In in Hin. rewrite Hin.
    apply String.eqb_neq in Hp. now rewrite Hp.
  - intros Hin Hp. apply existsb_eqb_In in Hin. rewrite Hin.
    apply String.eqb_neq in Hp. now rewrite Hp.
  - apply retrieve_NoDup. constructor.
  - intros key Hkey.
    assert (Hlook : lookup
              (fold_left (fun inputs inputName =>
                 assignPrimitive inputs inputName (VStr (getInput inputName)))
                 fields []) key <> None).
    { unfold lookup.
      destruct (find (fun p => String.eqb (fst p) key) _) eqn:E;
        [discriminate|].
      apply in_map_iff in Hkey as ([k y] & Hk & Hin). cbn [fst] in Hk. subst k.
      apply (find_none _ _ E) in Hin. cbn [fst] in Hin.
      now rewrite String.eqb_refl in Hin. }
    rewrite lookup_retrieve in Hlook.
    destruct (existsb (String.eqb key) fields) eqn:E.
    + now apply existsb_eqb_In.
    + cbn [andb] in Hlook. now contradiction Hlook.
Qed.

Example retrieveInputs_sample :
  retrieveInputs sampleInputs ["containerId"; "taskLevel"; "containerId"; "__proto__"]
  = VObj [("containerId", VStr "PLAY000826"); ("taskLevel", VStr "DEV2")].
Proof. reflexivity. Qed.

Lemma ownNamesOnly_In (fields : list string) (field : string) :
  ownNamesOnly fields = true -> In field fields ->
  ~ In field objectPrototypeKeys.
Proof.
  unfold ownNamesOnly. rewrite forallb_forall. intros H Hin Hproto.
  specialize (H field Hin). apply negb_true_iff in H.
  unfold inheritedName in H.
  assert (Ht : existsb (String.eqb field) objectPrototypeKeys = true).
  { apply existsb_exists. exists field. split; [exact Hproto|].
    apply String.eqb_refl. }
  rewrite Ht in H. discriminate H.
Qed.

(** Validating the retrieved inputs against the names they were retrieved
    for, when none of them is a name every object inherits: the result is
    [true] exactly when every input is a non-empty string, and one line is
    printed for each empty one. *)
Theorem validateBuildParms_retrieveInputs :
  forall (getInput : string -> string) (inputFields : list string),
    ownNamesOnly inputFields = true ->
    validateBuildParms (retrieveInputs getInput inputFields) inputFields
    = (map diagnostic
           (filter (fun field => negb (nonEmpty (getInput field))) inputFields),
       inr (forallb (fun field => nonEmpty (getInput field)) inputFields)).
Proof.
  intros getInput fields Hproto.
  assert (Hget : forall field, In field fields ->
            stringHasContent (getOwn (retrieveInputs getInput fields) field)
            = nonEmpty (getInput field)).
  { intros field Hin.
    rewrite retrieveInputs_field; [apply stringHasContent_VStr | exact Hin |].
    intros ->. apply (ownNamesOnly_In _ _ Hproto Hin). cbn. tauto. }
  unfold validateBuildParms.
  replace (negb (strictEq (retrieveInputs getInput fields) VNull)
           && negb (strictEq (retrieveInputs getInput fields) VUndefined))
    with true by reflexivity.
  rewrite validate_loop by discriminate.
  unfold missingFields. cbn [andb]. f_equal.
  - f_equal. apply filter_ext_in. intros field Hin. now rewrite Hget.
  - f_equal. now apply forallb_ext_in.
Qed.

Lemma validateBuildParms_retrieveInputs_witness :
  validateBuildParms
    (retrieveInputs sampleInputs ["containerId"; "releaseId"; "taskLevel"])
    ["containerId"; "releaseId"; "taskLevel"]
  = (map diagnostic
         (filter (fun field => negb (nonEmpty (sampleInputs field)))
                 ["containerId"; "releaseId"; "taskLevel"]),
     inr (forallb (fun field => nonEmpty (sampleInputs field))
                  ["containerId"; "releaseId"; "taskLevel"])).
Proof.
  refine (validateBuildParms_retrieveInputs sampleInputs
            ["containerId"; "releaseId"; "taskLevel"] _).
  reflexivity.
Defined.

(* ================================================================= *)
(** ** Every outcome of [handleResponseBody] *)

Lemma value_absent_cases (v : value) :
  v = VUndefined \/ v = VNull \/ (v <> VUndefined /\ v <> VNull).
Proof.
  destruct v; auto; right; right; split; discriminate.
Qed.

Ltac response_cases rb :=
  destruct (value_absent_cases rb) as [-> | [-> | [?Hu ?Hn]]];
  [ cbn | cbn
  | rewrite (handleResponseBody_defined rb) by assumption; cbv zeta;
    destruct (strictEq (getOwn rb "awaitStatus") VUndefined) eqn:?Eu;
    [ destruct (truthy (getOwn rb "message"))
    | destruct (strictEq (getOwn rb "awaitStatus") VNull) eqn:?En;
      [ | destruct (getStatusMessageToPrint_throws
                      (getOwn (getOwn rb "awaitStatus") "statusMsg")) eqn:?Et;
          [ | destruct (strictEq
                          (getOwn (getOwn rb "awaitStatus") "generateFailedCount")
                          (VNum 0)) eqn:?Ez ] ] ];
    cbn [fst snd negb List.length] ].

Ltac absurd_status :=
  first
    [ discriminate
    | contradiction
    | match goal with
      | E : getOwn ?rb "awaitStatus" = _,
        H : strictEq (getOwn ?rb "awaitStatus") _ = _ |- _ =>
          rewrite E in H; cbn in H; discriminate H
      | E : strictEq ?a VUndefined = true, H : ?a <> VUndefined |- _ =>
          apply strictEq_undefined in E; contradiction
      | E : strictEq ?a VNull = true, H : ?a <> VNull |- _ =>
          apply strictEq_null in E; contradiction
      | H : ?x <> ?x |- _ => contradiction H; reflexivity
      end ].

(** [handleResponseBody] ends in a [TypeError], and not in a
    [GenerateFailureException], exactly when the response body is [null],
    or its [awaitStatus] is [null], or its [awaitStatus] is there and a line
    of the [statusMsg] array cannot be converted to a string; nothing is
    printed then. *)
Theorem handleResponseBody_TypeError_iff :
  forall responseBody : value,
    (snd (handleResponseBody responseBody) = inl TypeError
     <-> responseBody = VNull
         \/ (responseBody <> VUndefined /\ responseBody <> VNull
             /\ getOwn responseBody "awaitStatus" = VNull)
         \/ (responseBody <> VUndefined /\ responseBody <> VNull
             /\ getOwn responseBody "awaitStatus" <> VUndefined
             /\ getOwn responseBody "awaitStatus" <> VNull
             /\ getStatusMessageToPrint_throws
                  (getOwn (getOwn responseBody "awaitStatus") "statusMsg")
                = true))
    /\ (snd (handleResponseBody responseBody) = inl TypeError ->
        fst (handleResponseBody responseBody) = []).
Proof.
  intro rb. response_cases rb;
    (split; [split|]; try discriminate; try reflexivity; auto).
  - intros [H | [(H & _) | (H & _)]]; absurd_status.
  - intros [-> | [(_ & _ & E) | (_ & _ & H & _)]]; absurd_status.
  - intros [-> | [(_ & _ & E) | (_ & _ & H & _)]]; absurd_status.
  - intros _. right. left. apply strictEq_null in En. auto.
  - intros _. right. right. repeat split; try assumption.
    + intro E. rewrite E in Eu. discriminate Eu.
    + intro E. rewrite E in En. discriminate En.
  - intros [-> | [(_ & _ & E) | (_ & _ & _ & _ & H)]]; absurd_status.
  - intros [-> | [(_ & _ & E) | (_ & _ & _ & _ & H)]]; absurd_status.
Qed.

Ltac outcome_solve :=
  repeat split; intros;
  repeat match goal with
         | H : exists _, _ |- _ => destruct H
         | H : _ /\ _ |- _ => destruct H
         | H : _ \/ _ |- _ => destruct H
         | H : In _ _ |- _ => cbn in H
         | H : False |- _ => destruct H
         end;
  try discriminate; try contradiction; auto 6;
  try (eexists; reflexivity).

(** Whatever the response body is, [handleResponseBody] prints at most one
    line, and it ends in one of its three exceptions, in a [TypeError], or
    returns its argument.  It prints with [console.error] exactly when it
    fails with "generate failures"; it prints one [console.log] line when it
    returns, and otherwise uses [console.log] only before "did not
    complete"; it prints nothing before "No response" or a [TypeError]. *)
Theorem handleResponseBody_outcomes :
  forall responseBody : value,
    let out := fst (handleResponseBody responseBody) in
    let result := snd (handleResponseBody responseBody) in
    (List.length out <= 1)%nat
    /\ (result = inl noResponse \/ result = inl notCompleted
        \/ result = inl generateFailures \/ result = inl TypeError
        \/ result = inr responseBody)
    /\ (result = inl generateFailures <-> exists v, out = [Error v])
    /\ (result = inr responseBody -> exists text, out = [Log (VStr text)])
    /\ (forall v, In (Log v) out ->
          result = inr responseBody \/ result = inl notCompleted)
    /\ (result = inl noResponse \/ result = inl TypeError -> out = []).
Proof.
  intros rb out result. subst out result.
  response_cases rb; outcome_solve.
Qed.

(* ================================================================= *)
(** ** More on validation *)

Lemma validateBuildParms_run (buildParms : value) (requiredFields : list string) :
  validateBuildParms buildParms requiredFields
  = if strictEq buildParms VNull || strictEq buildParms VUndefined
    then ([], inr false)
    else (map diagnostic (missingFields buildParms requiredFields),
          inr (forallb (fun field => stringHasContent (getOwn buildParms field))
                       requiredFields)).
Proof.
  unfold validateBuildParms.
  destruct (strictEq buildParms VNull) eqn:E1; [reflexivity|].
  destruct (strictEq buildParms VUndefined) eqn:E2; [reflexivity|].
  cbn [negb andb orb]. rewrite validate_loop; [reflexivity| |].
  - intros ->. discriminate E2.
  - intros ->. discriminate E1.
Qed.

Lemma missing_nil_iff {A} (f : A -> bool) (l : list A) :
  filter (fun x => negb (f x)) l = [] <-> forallb f l = true.
Proof.
  induction l as [|a l IH]; cbn [filter forallb]; [tauto|].
  destruct (f a); cbn [negb andb]; [exact IH|].
  split; intro H; discriminate H.
Qed.

(** Validating against two lists of fields, one after the other, prints the
    same lines as validating against their concatenation, and the
    concatenation is valid exactly when both lists are. *)
Theorem validateBuildParms_app :
  forall (buildParms : value) (fields1 fields2 : list string),
  exists (out1 out2 : list line) (valid1 valid2 : bool),
    validateBuildParms buildParms fields1 = (out1, inr valid1)
    /\ validateBuildParms buildParms fields2 = (out2, inr valid2)
    /\ validateBuildParms buildParms (fields1 ++ fields2)
       = ((out1 ++ out2)%list, inr (valid1 && valid2)).
Proof.
  intros bp f1 f2. rewrite !validateBuildParms_run.
  destruct (strictEq bp VNull || strictEq bp VUndefined).
  - exists [], [], false, false. repeat split.
  - do 4 eexists. split; [reflexivity|]. split; [reflexivity|].
    unfold missingFields. now rewrite filter_app, map_app, forallb_app.
Qed.

(** For a [buildParms] that is [null], [undefined] or an object, and
    required fields that are not names every object inherits:
    [validateBuildParms] never throws and prints with [console.error] only,
    one line for a required field at most; its result is [true] exactly
    when [buildParms] is neither [null] nor [undefined] and nothing was
    printed; with no required field, every such [buildParms] is valid. *)
Theorem validateBuildParms_silent_iff_valid :
  forall (buildParms : value) (requiredFields : list string),
    plainOrAbsent buildParms = true ->
    ownNamesOnly requiredFields = true ->
    let out := fst (validateBuildParms buildParms requiredFields) in
    let result := snd (validateBuildParms buildParms requiredFields) in
    (exists valid : bool, result = inr valid)
    /\ (result = inr true
        <-> buildParms <> VNull /\ buildParms <> VUndefined /\ out = [])
    /\ (forall printed, In printed out ->
          exists field, In field requiredFields /\ printed = diagnostic field)
    /\ (List.length out <= List.length requiredFields)%nat
    /\ (buildParms <> VNull -> buildParms <> VUndefined ->
        validateBuildParms buildParms [] = ([], inr true)).
Proof.
  intros bp fields _ _ out result. subst out result.
  rewrite !validateBuildParms_run.
  destruct (strictEq bp VNull) eqn:E1; cbn [orb].
  { apply strictEq_null in E1. subst bp. cbn [fst snd].
    repeat split; try (intros; discriminate); try tauto.
    - now exists false.
    - intros printed [].
    - cbn. lia. }
  destruct (strictEq bp VUndefined) eqn:E2; cbn [orb].
  { apply strictEq_undefined in E2. subst bp. cbn [fst snd].
    repeat split; try (intros; discriminate); try tauto.
    - now exists false.
    - intros printed [].
    - cbn. lia. }
  assert (Hn : bp <> VNull) by (intros ->; discriminate E1).
  assert (Hu : bp <> VUndefined) by (intros ->; discriminate E2).
  cbn [fst snd]. unfold missingFields.
  split; [eexists; reflexivity|].
  split; [|split; [|split]].
  - split.
    + intro H. injection H as H. repeat split; try assumption.
      apply missing_nil_iff in H.
      now rewrite H.
    + intros (_ & _ & H). f_equal.
      apply missing_nil_iff.
      destruct (filter _ fields); [reflexivity | discriminate H].
  - intros printed Hin. apply in_map_iff in Hin as (field & <- & Hf).
    apply filter_In in Hf as [Hf _]. now exists field.
  - rewrite length_map. apply filter_length_le.
  - intros _ _. reflexivity.
Qed.

Lemma validateBuildParms_silent_iff_valid_witness :
  snd (validateBuildParms
         (VObj [("containerId", VStr "PLAY000826"); ("taskLevel", VStr "DEV2")])
         ["containerId"; "taskLevel"]) = inr true
  <-> VObj [("containerId", VStr "PLAY000826"); ("taskLevel", VStr "DEV2")]
      <> VNull
      /\ VObj [("containerId", VStr "PLAY000826"); ("taskLevel", VStr "DEV2")]
         <> VUndefined
      /\ fst (validateBuildParms
                (VObj [("containerId", VStr "PLAY000826");
                       ("taskLevel", VStr "DEV2")])
                ["containerId"; "taskLevel"]) = [].
Proof.
  exact (proj1 (proj2 (validateBuildParms_silent_iff_valid
                         (VObj [("containerId", VStr "PLAY000826");
                                ("taskLevel", VStr "DEV2")])
                         ["containerId"; "taskLevel"] eq_refl eq_refl))).
Defined.

(* ================================================================= *)
(** ** What the clean-up of the base URL removes *)

Lemma lower_ascii_slash (c : ascii) : Str.lower_ascii c = "/"%char -> c = "/"%char.
Proof.
  destruct c as [[] [] [] [] [] [] [] []]; cbv; intro H;
    try reflexivity; discriminate H.
Qed.

Lemma startsAtSlash_app (a b : string) :
  startsAtSlash a -> startsAtSlash b -> startsAtSlash (a ++ b).
Proof.
  intros [-> | (r & ->)] Hb; [exact Hb|].
  right. now exists (r ++ b).
Qed.

Lemma truncateAtLast_tail (pat' cesUrl : string) :
  exists removed,
    cesUrl = truncateAtLast (String "/" pat') cesUrl ++ removed
    /\ startsAtSlash removed.
Proof.
  unfold truncateAtLast, Str.lastIndexOf.
  destruct (lastIndexOf_from_spec (String "/" pat') (Str.toLowerCase cesUrl) 0 (-1))
    as [[_ Hres] | (k & Hk & Hres & Hpre & _)]; rewrite Hres.
  - exists "". cbn. rewrite append_nil_r. split; [reflexivity | now left].
  - destruct (0 + Z.of_nat k >? 0) eqn:E.
    + exists (Str.drop k cesUrl). unfold Str.substr. cbn [Z.to_nat].
      rewrite Z.add_0_l, Nat2Z.id. split; [symmetry; apply substring_drop|].
      rewrite <- toLowerCase_drop in Hpre.
      destruct (Str.drop k cesUrl) as [|c r]; [now left|].
      right. exists r. f_equal. apply lower_ascii_slash.
      cbn [Str.toLowerCase String.prefix] in Hpre.
      destruct (ascii_dec "/" (Str.lower_ascii c)) as [E'|]; [|discriminate Hpre].
      now symmetry.
    + exists "". rewrite append_nil_r. split; [reflexivity | now left].
Qed.

Lemma substring_of_drop (k m : nat) (s : string) :
  String.substring k m s = String.substring 0 m (Str.drop k s).
Proof.
  revert s. induction k as [|k IH]; intro s; [reflexivity|].
  destruct s as [|c s]; cbn [String.substring Str.drop]; [|apply IH].
  destruct m; reflexivity.
Qed.

Lemma removeTrailingSlash_tail (cesUrl : string) :
  exists removed,
    cesUrl = removeTrailingSlash cesUrl ++ removed /\ startsAtSlash removed.
Proof.
  unfold removeTrailingSlash.
  destruct (Str.endsWith cesUrl "/") eqn:E.
  - unfold Str.endsWith in E. apply andb_true_iff in E as [Hlen E].
    apply String.eqb_eq in E. apply Nat.leb_le in Hlen.
    cbn [String.length] in Hlen, E.
    unfold Str.substr, Str.length. cbn [Z.to_nat].
    replace (Z.to_nat (Z.of_nat (String.length cesUrl) - 1))
      with (String.length cesUrl - 1)%nat by lia.
    exists (Str.drop (String.length cesUrl - 1) cesUrl).
    split; [symmetry; apply substring_drop|].
    rewrite substring_of_drop in E.
    destruct (Str.drop (String.length cesUrl - 1) cesUrl) as [|c r];
      [discriminate E|].
    right. exists r. cbn [String.substring] in E. now injection E as ->.
  - exists "". rewrite append_nil_r. split; [reflexivity | now left].
Qed.

(** The cleaned base URL of a base URL of ASCII characters is the start of
    the one supplied, with its characters as they were, and what was removed
    after it is empty or begins at a slash: the clean-up only drops whole
    trailing path text. *)
Theorem normalizedCesUrl_prefix :
  forall cesUrl : string,
    Str.isAscii cesUrl = true ->
    exists removed : string,
      cesUrl = normalizedCesUrl cesUrl ++ removed
      /\ startsAtSlash removed
      /\ (String.length (normalizedCesUrl cesUrl) <= String.length cesUrl)%nat.
Proof.
  intros u _. rewrite normalizedCesUrl_steps.
  destruct (truncateAtLast_tail "compuware" u) as (r1 & H1 & S1).
  destruct (truncateAtLast_tail "ispw" (truncateAtLast "/compuware" u))
    as (r2 & H2 & S2).
  destruct (removeTrailingSlash_tail
              (truncateAtLast "/ispw" (truncateAtLast "/compuware" u)))
    as (r3 & H3 & S3).
  set (base := removeTrailingSlash
                 (truncateAtLast "/ispw" (truncateAtLast "/compuware" u))) in *.
  assert (Hu : u = base ++ (r3 ++ r2 ++ r1)).
  { rewrite H1 at 1. rewrite H2 at 1. rewrite H3 at 1.
    now rewrite !append_assoc. }
  exists (r3 ++ r2 ++ r1). split; [exact Hu|]. split.
  - apply startsAtSlash_app; [exact S3|]. now apply startsAtSlash_app.
  - apply (f_equal String.length) in Hu. rewrite append_length in Hu. lia.
Qed.

Lemma normalizedCesUrl_prefix_witness :
  exists removed : string,
    "http://host:48226/Compuware/ISPW/"
    = normalizedCesUrl "http://host:48226/Compuware/ISPW/" ++ removed
    /\ startsAtSlash removed
    /\ (String.length (normalizedCesUrl "http://host:48226/Compuware/ISPW/")
        <= String.length "http://host:48226/Compuware/ISPW/")%nat.
Proof.
  exact (normalizedCesUrl_prefix "http://host:48226/Compuware/ISPW/" eq_refl).
Defined.

(* ================================================================= *)
(** ** The text of the request body *)

(** When the platform never writes a value as the empty text,
    [convertObjectToJson] gives the empty string for [null] and [undefined]
    only; and the body that [assembleRequestBodyObject] builds is always
    handed to the platform: its text is never the empty fallback. *)
Theorem convertObjectToJson_empty_iff :
  forall JSON_stringify : value -> string,
    (forall v, v <> VUndefined -> JSON_stringify v <> "") ->
    (forall data : value,
        convertObjectToJson JSON_stringify data = ""
        <-> data = VNull \/ data = VUndefined)
    /\ (forall runtimeConfig changeType executionStatus autoDeploy : value,
          let body := assembleRequestBodyObject runtimeConfig changeType
                        executionStatus autoDeploy in
          convertObjectToJson JSON_stringify body = JSON_stringify body
          /\ convertObjectToJson JSON_stringify body <> "").
Proof.
  intros stringify Htext. split.
  - intro data. unfold convertObjectToJson.
    destruct (value_absent_cases data) as [-> | [-> | [Hu Hn]]];
      [cbn; tauto | cbn; tauto |].
    replace (negb (strictEq data VNull) && negb (looseEqUndefined data)) with true
      by (destruct data; try reflexivity; contradiction).
    split; [intro H; now apply Htext in H | intros [H | H]; contradiction].
  - intros rc ct es ad body.
    assert (H : convertObjectToJson stringify body = stringify body)
      by reflexivity.
    split; [exact H|]. rewrite H. apply Htext. discriminate.
Qed.

Lemma convertObjectToJson_empty_iff_witness :
  (forall data : value,
      convertObjectToJson (fun _ => autoDeployText) data = ""
      <-> data = VNull \/ data = VUndefined)
  /\ (forall runtimeConfig changeType executionStatus autoDeploy : value,
        let body := assembleRequestBodyObject runtimeConfig changeType
                      executionStatus autoDeploy in
        convertObjectToJson (fun _ => autoDeployText) body = autoDeployText
        /\ convertObjectToJson (fun _ => autoDeployText) body <> "").
Proof.
  refine (convertObjectToJson_empty_iff (fun _ => autoDeployText) _).
  intros v _. discriminate.
Defined.

(* ================================================================= *)
(** ** The request body for any input *)

Lemma strictEq_true_string (v : value) :
  strictEq v (VStr "true") = true <-> v = VStr "true".
Proof.
  destruct v; cbn [strictEq]; split; intro H; try discriminate H.
  - apply String.eqb_eq in H. now subst.
  - injection H as ->. reflexivity.
Qed.

(** For inputs of any kind, the body lists, in this order, [runtimeConfig],
    [changeType] and [execStat] for the inputs that have content, each with
    its input as it is, and then [autoDeploy], a boolean that is [true] for
    the string "true" and for no other value. *)
Theorem assembleRequestBodyObject_any_input :
  forall runtimeConfig changeType executionStatus autoDeploy : value,
    assembleRequestBodyObject runtimeConfig changeType executionStatus autoDeploy
    = VObj (optionalProperty "runtimeConfig" runtimeConfig
            ++ optionalProperty "changeType" changeType
            ++ optionalProperty "execStat" executionStatus
            ++ [("autoDeploy", VBool (strictEq autoDeploy (VStr "true")))])%list
    /\ (getOwn (assembleRequestBodyObject runtimeConfig changeType
                  executionStatus autoDeploy) "autoDeploy" = VBool true
        <-> autoDeploy = VStr "true")
    /\ optionalProperty "runtimeConfig" VUndefined = []
    /\ optionalProperty "runtimeConfig" VNull = []
    /\ (forall n, optionalProperty "runtimeConfig" (VNum n)
                  = [("runtimeConfig", VNum n)]).
Proof.
  intros rc ct es ad.
  assert (Hbody : assembleRequestBodyObject rc ct es ad
    = VObj (optionalProperty "runtimeConfig" rc
            ++ optionalProperty "changeType" ct
            ++ optionalProperty "execStat" es
            ++ [("autoDeploy", VBool (strictEq ad (VStr "true")))])%list).
  { unfold assembleRequestBodyObject, optionalProperty.
    destruct (stringHasContent rc), (stringHasContent ct),
      (stringHasContent es); reflexivity. }
  split; [exact Hbody|]. split; [|repeat split].
  rewrite Hbody. rewrite <- strictEq_true_string.
  unfold optionalProperty.
  destruct (stringHasContent rc), (stringHasContent ct),
    (stringHasContent es); cbn; destruct (strictEq ad (VStr "true"));
    split; intro H; try reflexivity; discriminate H.
Qed.

Example assembleRequestBodyObject_boolean_autoDeploy :
  assembleRequestBodyObject VUndefined VUndefined VUndefined (VBool true)
  = VObj [("autoDeploy", VBool false)].
Proof. reflexivity. Qed.

(* ================================================================= *)
(** ** Which values have content *)

(** [stringHasContent] is [false] for [null], [undefined], the empty string,
    the empty array and an object whose [length] is [0], and for nothing
    else: numbers and booleans, [0] and [false] included, have content. *)
Theorem stringHasContent_false_iff :
  forall inputStr : value,
    stringHasContent inputStr = false
    <-> inputStr = VNull \/ inputStr = VUndefined \/ inputStr = VStr ""
        \/ inputStr = VArr []
        \/ exists props, inputStr = VObj props
                         /\ lookup props "length" = Some (VNum 0).
Proof.
  intros [| |b|n|s|elems|props].
  - split; [intros _; auto | reflexivity].
  - split; [intros _; auto | reflexivity].
  - split; [discriminate|].
    intros [H | [H | [H | [H | (p & H & _)]]]]; discriminate H.
  - split; [discriminate|].
    intros [H | [H | [H | [H | (p & H & _)]]]]; discriminate H.
  - rewrite stringHasContent_VStr. unfold nonEmpty.
    destruct (String.eqb_spec s "") as [->|Hs]; cbn [negb].
    + split; [intros _; auto | reflexivity].
    + split; [discriminate|].
      intros [H | [H | [H | [H | (p & H & _)]]]]; try discriminate H.
      injection H as H. contradiction.
  - rewrite stringHasContent_VArr. destruct elems as [|e elems]; cbn.
    + split; [intros _; auto 6 | reflexivity].
    + split; [discriminate|].
      intros [H | [H | [H | [H | (p & H & _)]]]]; discriminate H.
  - unfold stringHasContent. cbn [strictEq orb getOwn].
    destruct (lookup props "length") as [x|] eqn:E.
    + destruct (strictEq x (VNum 0)) eqn:Ex.
      * apply strictEq_zero in Ex. subst x.
        split; [intros _ | reflexivity].
        right. right. right. right. now exists props.
      * split; [discriminate|].
        intros [H | [H | [H | [H | (p & H & Hp)]]]]; try discriminate H.
        injection H as <-. rewrite E in Hp. injection Hp as ->.
        discriminate Ex.
    + split; [discriminate|].
      intros [H | [H | [H | [H | (p & H & Hp)]]]]; try discriminate H.
      injection H as <-. rewrite E in Hp. discriminate Hp.
Qed.

(* ================================================================= *)
(** ** The message for a field outside the table *)

(** For a field that is not one of the four of the table (and not a name
    every object inherits), the replacement is [undefined] and the message
    names no field: it reads "aundefined". *)
Theorem getMissingInputMessage_unknown :
  forall fieldName : string,
    ~ In fieldName generateFields ->
    ~ In fieldName objectPrototypeKeys ->
    getMissingInputMessage fieldName
    = "Missing input: aundefined must be specified.".
Proof.
  intros field Hknown _.
  assert (H : getOwn fieldNameReplacement field = VUndefined).
  { unfold fieldNameReplacement, getOwn, lookup. cbn [find fst snd].
    cbn [generateFields In] in Hknown.
    repeat match goal with
           | |- context [String.eqb ?k field] =>
               destruct (String.eqb_spec k field); [tauto|]
           end.
    reflexivity. }
  unfold getMissingInputMessage. now rewrite H.
Qed.

Lemma getMissingInputMessage_unknown_witness :
  getMissingInputMessage "srid" = "Missing input: aundefined must be specified.".
Proof.
  refine (getMissingInputMessage_unknown "srid" _ _);
    cbn; intuition discriminate.
Defined.

(* ================================================================= *)
(** ** The status message of any array *)

Lemma fold_status_acc (elems : list value) (acc : string) :
  fold_left (fun message line => message ++ (toString line ++ newline))
            elems acc
  = acc ++ fold_left (fun message line => message ++ (toString line ++ newline))
                     elems "".
Proof.
  revert acc. induction elems as [|e elems IH]; intro acc; cbn [fold_left].
  - now rewrite append_nil_r.
  - rewrite IH. rewrite (IH ("" ++ (toString e ++ newline))).
    cbn [append]. now rewrite append_assoc.
Qed.

(** For an array of values that convert to strings (strings, booleans,
    [null], [undefined], integers that a number holds exactly, arrays of
    such values, objects without an own [toString]), the call completes and
    each entry gives its string form followed by a newline, in order: the
    message of a concatenation is the concatenation of the messages, a
    single entry gives its string form and a newline, and the message has
    at least one character for each entry. *)
Theorem getStatusMessageToPrint_array :
  forall xs ys : list value,
    forallb toString_exact (xs ++ ys) = true ->
    call_getStatusMessageToPrint (VArr (xs ++ ys))
    = ret (getStatusMessageToPrint (VArr xs)
           ++ getStatusMessageToPrint (VArr ys))
    /\ (forall x : value,
          In x (xs ++ ys) ->
          call_getStatusMessageToPrint (VArr [x]) = ret (toString x ++ newline))
    /\ call_getStatusMessageToPrint (VArr []) = ret ""
    /\ (List.length (xs ++ ys)
        <= String.length (getStatusMessageToPrint (VArr (xs ++ ys))))%nat.
Proof.
  intros xs ys Hexact.
  assert (Happ : forall xs ys : list value,
      getStatusMessageToPrint (VArr (xs ++ ys))
      = getStatusMessageToPrint (VArr xs) ++ getStatusMessageToPrint (VArr ys)).
  { intros xs' ys'. unfold getStatusMessageToPrint. cbv zeta.
    rewrite fold_left_app. apply fold_status_acc. }
  split; [|split; [|split; [reflexivity|]]].
  - unfold call_getStatusMessageToPrint.
    rewrite (getStatusMessageToPrint_exact_completes (VArr (xs ++ ys)) Hexact).
    now rewrite Happ.
  - intros x Hx. unfold call_getStatusMessageToPrint.
    rewrite (getStatusMessageToPrint_exact_completes (VArr [x])).
    + reflexivity.
    + cbn [getStatusMessageToPrint_exact forallb]. rewrite andb_true_r.
      rewrite forallb_forall in Hexact. now apply Hexact.
  - clear Hexact. induction (xs ++ ys)%list as [|e elems IH]; [cbn; lia|].
    change (e :: elems) with ([e] ++ elems)%list. rewrite Happ.
    rewrite append_length. cbn [List.length app].
    assert (H1 : (1 <= String.length (getStatusMessageToPrint (VArr [e])))%nat).
    { change (getStatusMessageToPrint (VArr [e]))
        with ("" ++ (toString e ++ newline)).
      cbn [append]. rewrite append_length. cbn. lia. }
    lia.
Qed.

Lemma getStatusMessageToPrint_array_witness :
  call_getStatusMessageToPrint
    (VArr ([VStr "Generate failed"; VNull] ++ [VNum 2; VObj [("rc", VNum 8)]]))
  = ret (getStatusMessageToPrint (VArr [VStr "Generate failed"; VNull])
         ++ getStatusMessageToPrint (VArr [VNum 2; VObj [("rc", VNum 8)]])).
Proof.
  exact (proj1 (getStatusMessageToPrint_array
                  [VStr "Generate failed"; VNull]
                  [VNum 2; VObj [("rc", VNum 8)]] eq_refl)).
Defined.

Example getStatusMessageToPrint_mixed :
  getStatusMessageToPrint (VArr [VStr "Generate failed"; VNull; VNum 2])
  = "Generate failed" ++ newline ++ "null" ++ newline ++ "2" ++ newline.
Proof. reflexivity. Qed.

(* ================================================================= *)
(** ** Task ids are written as they are *)


(* ================================================================= *)
(** ** From the input text to the validated parameters to the URL *)

(** Parsing the build parameters and validating the result: an input
    without content, or a text that parses to [null], is rejected with
    [false] and without any message; an exception of the parser ends the
    run before anything is validated. *)
Theorem parse_then_validate :
  forall (JSON_parse : string -> M value) (requiredFields : list string)
         (jsonString : value),
    let run :=
      (buildParms <- parseStringAsJson JSON_parse jsonString ;;
       validateBuildParms buildParms requiredFields)%js in
    (stringHasContent jsonString = false -> run = ([], inr false))
    /\ (forall out, stringHasContent jsonString = true ->
          JSON_parse (toString jsonString) = (out, inr VNull) ->
          run = (out, inr false))
    /\ (forall out e, stringHasContent jsonString = true ->
          JSON_parse (toString jsonString) = (out, inl e) ->
          run = (out, inl e))
    /\ (forall out buildParms, stringHasContent jsonString = true ->
          JSON_parse (toString jsonString) = (out, inr buildParms) ->
          fst run = (out ++ fst (validateBuildParms buildParms requiredFields))%list
          /\ snd run = snd (validateBuildParms buildParms requiredFields)).
Proof.
  intros parse fields input run. subst run. unfold parseStringAsJson. cbv zeta.
  split; [|split; [|split]].
  - intros ->. now rewrite bind_ret_l.
  - intros out -> ->. cbn. now rewrite app_nil_r.
  - intros out e -> ->. reflexivity.
  - intros out bp -> ->. cbn [bind].
    destruct (validateBuildParms bp fields). split; reflexivity.
Qed.


